(** * Verification of [src/task1_enrich.py]

    The enrichment script loads a table of financial-inclusion records,
    repairs a known swap between two provenance fields, appends missing
    [event] and [impact_link] records from a fixed catalogue and writes the
    result.  This file embeds the script function by function and proves
    the properties the specification states about it.

    Modelling conventions.
    - A Python [str] is a [string]; its characters are code points below
      256, among which the regular-expression class [\d] matches exactly
      the ten ASCII digits.
    - A table cell is a dynamically typed scalar ([cell]), as in a pandas 2
      column of dtype [object]; the two nulls pandas knows ([NaN] read from
      a file, [pd.NA] written by [mk_base_row]) are one value [NA], which
      [astype(str)] turns into the text [nan].  Column dtypes and the
      coercions pandas applies to whole columns are not part of the model:
      a number appended to a column may be stored as a float, text and
      nulls are stored as they are, and the statements that read an
      identifier back from the frame are made for identifiers that are
      text or null ([text_ids]).
    - Integers are unbounded; CPython's limit of 4300 digits on the
      conversions between [int] and [str] is modelled beside [next_id]
      ([next_id_limited]), and the two agree on identifiers of at most 4300
      characters.
    - A [DataFrame] is its ordered column labels and its rows; a row is a
      Python [dict]; a label missing from a row's dict reads as [NA], which
      is what [pd.concat] shows for it.
    - Python exceptions are carried by the [result] monad. *)

From Stdlib Require Import ZArith NArith String Ascii List Decimal DecimalString DecimalN Lia.
From stdpp Require Import base option strings list gmap.

Set Warnings "-clear-no-such-hyp".

(* ===================================================================== *)
(** * Python strings, regular expressions and integers                    *)
(* ===================================================================== *)

Module Py.

(** [\d] on a character below 256. *)
Definition is_digit (a : ascii) : bool :=
  (48 <=? N_of_ascii a)%N && (N_of_ascii a <=? 57)%N.

Fixpoint all_digits (s : string) : bool :=
  match s with
  | EmptyString => true
  | String a s' => is_digit a && all_digits s'
  end.

Definition newline : ascii := "010"%char.

(** Literal prefix of a pattern ([re.escape] makes the prefix literal):
    the rest of [s] after [p], if [s] starts with [p]. *)
Fixpoint strip_prefix (p s : string) : option string :=
  match p, s with
  | EmptyString, _ => Some s
  | String a p', String b s' =>
      if Ascii.eqb a b then strip_prefix p' s' else None
  | String _ _, EmptyString => None
  end.

(** [$] without [re.MULTILINE] matches at the end of the string and also
    just before a newline that is the last character: the part of [s] a
    pattern has to consume for [$] to succeed right after it is [s] without
    that one final newline. *)
Fixpoint before_dollar (s : string) : string :=
  match s with
  | EmptyString => EmptyString
  | String a EmptyString => if Ascii.eqb a newline then EmptyString else s
  | String a s' => String a (before_dollar s')
  end.

(** [re.compile(rf"^{re.escape(prefix)}_(\d+)$").match(x)]: the text of
    group 1, or [None] when there is no match. *)
Definition match_id (prefix x : string) : option string :=
  match strip_prefix (prefix +:+ "_") x with
  | None => None
  | Some rest =>
      let g := before_dollar rest in
      if (0 <? String.length g)%nat && all_digits g then Some g else None
  end.

(** [str.match(r"^\d{4}-\d{2}-\d{2}$")]. *)
Definition match_date (x : string) : bool :=
  match before_dollar x with
  | String y1 (String y2 (String y3 (String y4 (String h1
      (String m1 (String m2 (String h2 (String d1 (String d2 EmptyString))))))))) =>
      is_digit y1 && is_digit y2 && is_digit y3 && is_digit y4
      && Ascii.eqb h1 "-" && is_digit m1 && is_digit m2
      && Ascii.eqb h2 "-" && is_digit d1 && is_digit d2
  | _ => false
  end.

(** [int(s)] on the text of a [\d+] group, on an interpreter whose limit on
    the digits of an integer is switched off; [None] is [ValueError].  The
    limit itself is in [int_limited] below. *)
Definition int (s : string) : option Z :=
  match s with
  | EmptyString => None
  | _ => Z.of_uint <$> NilEmpty.uint_of_string s
  end.

(** [str(n)] for an integer. *)
Definition str_int (z : Z) : string :=
  NilZero.string_of_int (Z.to_int z).

Fixpoint zeros (n : nat) : string :=
  match n with
  | O => EmptyString
  | S n' => String "0" (zeros n')
  end.

(** [f"{z:04d}"]: decimal, zero-padded to width 4, the sign counted in the
    width; again without the limit on digits, which is in
    [format_04d_limited]. *)
Definition format_04d (z : Z) : string :=
  let ds := NilZero.string_of_uint (N.to_uint (Z.abs_N z)) in
  if (z <? 0)%Z
  then String "-" (zeros (3 - String.length ds) +:+ ds)
  else zeros (4 - String.length ds) +:+ ds.

(** [max(nums)]; [None] is the [ValueError] on an empty list. *)
Definition max (nums : list Z) : option Z :=
  match nums with
  | [] => None
  | n :: ns => Some (fold_left Z.max ns n)
  end.

(** The text [format_04d] gives for a natural number. *)
Definition digits_04 (n : Z) : string :=
  let ds := NilZero.string_of_uint (N.to_uint (Z.abs_N n)) in
  zeros (4 - String.length ds) +:+ ds.

(** The limit CPython puts on the digits of an integer in [int(text)] and
    in [str(n)] ([sys.get_int_max_str_digits()]: 4300 unless reconfigured,
    since Python 3.11 and the patched releases of the earlier versions). *)
Definition int_max_str_digits : nat := 4300.

(** [int(s)] under the limit: [ValueError] also when [s] has more than
    4300 digits, leading zeros counted. *)
Definition int_limited (s : string) : option Z :=
  if (int_max_str_digits <? String.length s)%nat then None else int s.

(** The number of digits [str] needs for an integer. *)
Definition nb_decimal_digits (z : Z) : nat :=
  String.length (NilZero.string_of_uint (N.to_uint (Z.abs_N z))).

(** [f"{z:04d}"] under the limit: [ValueError] ([None]) when the number has
    more than 4300 digits. *)
Definition format_04d_limited (z : Z) : option string :=
  if (int_max_str_digits <? nb_decimal_digits z)%nat then None
  else Some (format_04d z).

(** A run of nines. *)
Fixpoint nines (n : nat) : string :=
  match n with
  | O => EmptyString
  | S n' => String "9" (nines n')
  end.

(** Calendar of [pd.to_datetime] on the ISO spelling. *)
Definition digit_value (a : ascii) : Z := (Z.of_N (N_of_ascii a) - 48)%Z.

Definition is_leap (y : Z) : bool :=
  ((y mod 4 =? 0) && (negb (y mod 100 =? 0) || (y mod 400 =? 0)))%Z.

Definition days_in_month (y m : Z) : Z :=
  if (m =? 2)%Z then (if is_leap y then 29 else 28)%Z
  else if ((m =? 4) || (m =? 6) || (m =? 9) || (m =? 11))%Z then 30%Z
  else 31%Z.

(** The year of a text that is exactly [YYYY-MM-DD] and names a day of the
    calendar in the years a nanosecond timestamp holds throughout (1678 to
    2261); [None] for any other text. *)
Definition iso_calendar_year (s : string) : option Z :=
  match s with
  | String y1 (String y2 (String y3 (String y4 (String h1
      (String m1 (String m2 (String h2 (String d1 (String d2 EmptyString))))))))) =>
      if is_digit y1 && is_digit y2 && is_digit y3 && is_digit y4
         && Ascii.eqb h1 "-" && is_digit m1 && is_digit m2
         && Ascii.eqb h2 "-" && is_digit d1 && is_digit d2
      then
        let y := (1000 * digit_value y1 + 100 * digit_value y2
                  + 10 * digit_value y3 + digit_value y4)%Z in
        let m := (10 * digit_value m1 + digit_value m2)%Z in
        let d := (10 * digit_value d1 + digit_value d2)%Z in
        if ((1678 <=? y) && (y <=? 2261) && (1 <=? m) && (m <=? 12)
            && (1 <=? d) && (d <=? days_in_month y m))%Z
        then Some y else None
      else None
  | _ => None
  end.

End Py.

(* ===================================================================== *)
(** * Cells, rows and data frames                                          *)
(* ===================================================================== *)

(** A scalar held by a table cell.  A float is named by its [repr], the
    text [str] and [to_csv] show for it. *)
Inductive cell : Type :=
  | NA
  | Str (s : string)
  | Int (z : Z)
  | Float (repr : string).

#[global] Instance cell_eq_dec : EqDecision cell.
Proof. solve_decision. Defined.

(** [pd.isna] *)
Definition isna (c : cell) : bool :=
  match c with NA => true | _ => false end.

(** [str(c)], which is also what [astype(str)] does to each element. *)
Definition py_str (c : cell) : string :=
  match c with
  | NA => "nan"
  | Str s => s
  | Int z => Py.str_int z
  | Float r => r
  end.

(** A row under construction is a Python dict: insertion-ordered, one
    entry per key. *)
Definition Row : Type := list (string * cell).

Fixpoint dict_get (k : string) (d : Row) : option cell :=
  match d with
  | [] => None
  | (k', v) :: d' => if String.eqb k k' then Some v else dict_get k d'
  end.

(** [d[k] = v]: overwrite in place, or append a new key at the end. *)
Fixpoint dict_set (k : string) (v : cell) (d : Row) : Row :=
  match d with
  | [] => [(k, v)]
  | (k', v') :: d' =>
      if String.eqb k k' then (k, v) :: d' else (k', v') :: dict_set k v d'
  end.

Definition keys (d : Row) : list string := map fst d.

(** A run of assignments [d[k1] = v1; d[k2] = v2; ...]. *)
Definition assign (d : Row) (kvs : list (string * cell)) : Row :=
  fold_left (fun d kv => dict_set (fst kv) (snd kv) d) kvs d.

(** The cell of a row under a column label. *)
Definition cell_at (c : string) (r : Row) : cell :=
  default NA (dict_get c r).

Record DataFrame : Type := mkDF {
  columns : list string;
  rows : list Row
}.

Definition has_col (df : DataFrame) (c : string) : bool :=
  bool_decide (c ∈ columns df).

(** Python exceptions the script can meet. *)
Inductive exn : Type :=
  | KeyError (k : string)
  | ValueError
  | ReadError.

Inductive result (A : Type) : Type :=
  | Ok (a : A)
  | Raise (e : exn).
Arguments Ok {A} a.
Arguments Raise {A} e.

#[global] Instance result_ret : MRet result := fun _ a => Ok a.
#[global] Instance result_bind : MBind result := fun _ _ f m =>
  match m with
  | Ok a => f a
  | Raise e => Raise e
  end.
#[global] Instance result_fmap : FMap result := fun _ _ f m =>
  match m with
  | Ok a => Ok (f a)
  | Raise e => Raise e
  end.

(** [df[c]]: the column as a list of cells, [KeyError] on an unknown label. *)
Definition getcol (df : DataFrame) (c : string) : result (list cell) :=
  if has_col df c then Ok (map (cell_at c) (rows df)) else Raise (KeyError c).

(** [df.get(c, pd.Series(dtype=str))]: the column, or an empty series. *)
Definition getcol_or_empty (rs : list Row) (present : bool) (c : string) : list cell :=
  if present then map (cell_at c) rs else [].

(** [pd.concat([df, pd.DataFrame([row])], ignore_index=True)]: the outer
    join keeps the frame's labels in order and adds the row's other keys
    after them.  Cells are kept as they are.  pandas holds a column under
    one dtype: an integer that joins a column of floats or nulls becomes a
    float ([6] into [6.0], a numeric parent identifier [1] into [1.0]), and
    so do the integers of a column that a float or a null number joins,
    which changes the text [astype(str)] shows for them.  Text and nulls
    are stored as they are.  The script appends numbers under [lag_months]
    and [impact_magnitude] only, and under [parent_id] when the identifier
    of the parent is a number or null; the statements that read a cell of
    the frame back as text are therefore made for frames whose cells under
    [record_id] and [parent_id] are text or null ([text_ids]). *)
Definition concat_row (df : DataFrame) (row : Row) : DataFrame :=
  {| columns := columns df ++ filter (fun k => k ∉ columns df) (keys row);
     rows := rows df ++ [row] |}.

(** [df[df["record_type"].eq(kind)]], as the list of selected rows. *)
Definition is_kind (kind : string) (r : Row) : bool :=
  bool_decide (cell_at "record_type" r = Str kind).

(* ===================================================================== *)
(** * The script                                                           *)
(* ===================================================================== *)

Definition RAW_PATH : string := "data/raw/ethiopia_fi_unified_data.csv".
Definition OUT_PATH : string := "data/processed/ethiopia_fi_unified_data_enriched.csv".

Definition COLLECTED_BY : string := "AbbyGailErm".
Definition COLLECTION_DATE : string := "2026-02-03".

Definition ID_COL : string := "record_id".
Definition DATE_COL : string := "observation_date".

Definition mk_base_row (cols : list string) : Row :=
  assign [] (map (fun c => (c, NA)) cols).

(** [existing_ids.dropna().astype(str).tolist()] *)
Definition id_strings (existing_ids : list cell) : list string :=
  map py_str (filter (fun c => negb (isna c)) existing_ids).

(** The loop of [next_id]: the numbers of the identifiers that match. *)
Definition id_numbers (prefix : string) (ids : list string) : list Z :=
  omap (fun x => Py.match_id prefix x ≫= Py.int) ids.

Definition next_id (existing_ids : list cell) (prefix : string) : string :=
  let ids := id_strings existing_ids in
  let nums := id_numbers prefix ids in
  let nxt := match Py.max nums with
             | Some m => (m + 1)%Z
             | None => 1%Z
             end in
  prefix +:+ "_" +:+ Py.format_04d nxt.

(** [next_id] as CPython runs it with the limit on digits: a suffix of more
    than 4300 digits makes [int] raise the [ValueError] the loop swallows,
    and a next number of more than 4300 digits makes the f-string raise a
    [ValueError] nothing catches.  On identifiers of at most 4300 characters
    this is [next_id] ([next_id_limited_short] below), which is what the
    rest of the script is modelled with. *)
Definition id_numbers_limited (prefix : string) (ids : list string) : list Z :=
  omap (fun x => Py.match_id prefix x ≫= Py.int_limited) ids.

Definition next_id_limited (existing_ids : list cell) (prefix : string)
  : result string :=
  let ids := id_strings existing_ids in
  let nums := id_numbers_limited prefix ids in
  let nxt := match Py.max nums with
             | Some m => (m + 1)%Z
             | None => 1%Z
             end in
  match Py.format_04d_limited nxt with
  | Some text => Ok (prefix +:+ "_" +:+ text)
  | None => Raise ValueError
  end.

(** The mask of [fix_collector_fields] on one row. *)
Definition fix_mask (r : Row) : bool :=
  Py.match_date (py_str (cell_at "collected_by" r))
  && isna (cell_at "collection_date" r).

Definition fix_row (r : Row) : Row :=
  if fix_mask r
  then dict_set "collected_by" (Str "Example_Trainee")
         (dict_set "collection_date" (cell_at "collected_by" r) r)
  else r.

Definition fix_collector_fields (df : DataFrame) : DataFrame :=
  if negb (has_col df "collected_by") || negb (has_col df "collection_date")
  then df
  else {| columns := columns df; rows := map fix_row (rows df) |}.

(** [pd.to_datetime(s).year] for a text in the ISO spelling [YYYY-MM-DD],
    the only spelling the script passes.  Where the model returns a year
    (a day of the calendar, 1678 to 2261) it is the year pandas returns.
    On an ISO text that names no day ([2024-02-30]) pandas raises a
    [ValueError], as here; pandas also reads other spellings and other
    years, which the model does not follow, so every statement about a date
    other than the two of the script assumes [Py.iso_calendar_year] gives a
    year for it. *)
Definition to_datetime_year (s : string) : result Z :=
  match Py.iso_calendar_year s with
  | Some y => Ok y
  | None => Raise ValueError
  end.

(** The keyword arguments of [add_event]. *)
Record event_args : Type := {
  indicator : string;
  indicator_code : string;
  category : string;
  event_date : string;
  source_name : string;
  source_type : string;
  source_url : string;
  original_text : string;
  confidence : string;
  notes : string
}.

(** The row [add_event] builds, given the identifier [next_id] returned
    and the year of the event date. *)
Definition event_row (cols : list string) (a : event_args) (id : string) (year : Z)
  : Row :=
  assign (mk_base_row cols)
    [ (ID_COL, Str id);
      ("record_type", Str "event");
      ("category", Str (category a));
      ("pillar", NA);
      ("indicator", Str (indicator a));
      ("indicator_code", Str (indicator_code a));
      ("value_text", Str "Occurred");
      ("value_type", Str "categorical");
      (DATE_COL, Str (event_date a));
      ("fiscal_year", Str (Py.str_int year));
      ("gender", Str "all");
      ("location", Str "national");
      ("region", NA);
      ("source_name", Str (source_name a));
      ("source_type", Str (source_type a));
      ("source_url", Str (source_url a));
      ("confidence", Str (confidence a));
      ("collected_by", Str COLLECTED_BY);
      ("collection_date", Str COLLECTION_DATE);
      ("original_text", Str (original_text a));
      ("notes", Str (notes a)) ].

Definition add_event (df : DataFrame) (cols : list string) (a : event_args)
  : result (DataFrame * Row) :=
  ids ← getcol df ID_COL;
  year ← to_datetime_year (event_date a);
  let row := event_row cols a (next_id ids "EVT") year in
  Ok (concat_row df row, row).

(** The arguments of [add_impact_link]; the keyword defaults
    ([relationship_type], [comparable_country], [confidence], [notes]) are
    written out by the caller. *)
Record link_args : Type := {
  parent_id : cell;
  pillar : string;
  related_indicator : string;
  impact_direction : string;
  impact_magnitude : string;   (* the float, by its repr *)
  lag_months : Z;
  evidence_basis : string;
  relationship_type : string;
  comparable_country : string;
  link_confidence : string;
  link_notes : string
}.

(** The row [add_impact_link] builds, given the identifier [next_id]
    returned. *)
Definition link_row (cols : list string) (a : link_args) (id : string) : Row :=
  assign (mk_base_row cols)
    [ (ID_COL, Str id);
      ("record_type", Str "impact_link");
      ("parent_id", parent_id a);
      ("pillar", Str (pillar a));
      ("related_indicator", Str (related_indicator a));
      ("relationship_type", Str (relationship_type a));
      ("impact_direction", Str (impact_direction a));
      ("impact_magnitude", Float (impact_magnitude a));
      ("lag_months", Int (lag_months a));
      ("evidence_basis", Str (evidence_basis a));
      ("comparable_country", Str (comparable_country a));
      ("confidence", Str (link_confidence a));
      ("collected_by", Str COLLECTED_BY);
      ("collection_date", Str COLLECTION_DATE);
      ("notes", Str (if String.eqb (link_notes a) ""
                     then "Impact link added for event-augmented modeling; calibrate in Task 3."
                     else link_notes a)) ].

Definition add_impact_link (df : DataFrame) (cols : list string) (a : link_args)
  : result (DataFrame * Row) :=
  ids ← getcol df ID_COL;
  let row := link_row cols a (next_id ids "LNK") in
  Ok (concat_row df row, row).

(** [events[[ID_COL, "indicator_code"]].dropna(subset=["indicator_code"])
      .set_index("indicator_code")[ID_COL].to_dict()]
    over the rows typed [event]; a later row overwrites an earlier one with
    the same code.  The script only ever looks text keys up, so a code that
    is not text is left out of the model of the dict. *)
Definition lookup_step (m : gmap string cell) (r : Row) : gmap string cell :=
  match cell_at "indicator_code" r with
  | Str code => <[code := cell_at ID_COL r]> m
  | _ => m
  end.

Definition event_lookup (df : DataFrame) : result (gmap string cell) :=
  _ ← getcol df "record_type";
  _ ← getcol df ID_COL;
  _ ← getcol df "indicator_code";
  Ok (fold_left lookup_step (filter (fun r => is_kind "event" r) (rows df)) ∅).

(** Lines 210-216: the de-duplication set of the rows typed [impact_link]. *)
Definition link_key (r : Row) : string * string :=
  (py_str (cell_at "parent_id" r), py_str (cell_at "related_indicator" r)).

Definition existing_link_keys (df : DataFrame) : result (gset (string * string)) :=
  _ ← getcol df "record_type";
  let existing_links := filter (fun r => is_kind "impact_link" r) (rows df) in
  let parents :=
    py_str <$> getcol_or_empty existing_links (has_col df "parent_id") "parent_id" in
  let related :=
    py_str <$> getcol_or_empty existing_links (has_col df "related_indicator")
                 "related_indicator" in
  Ok (list_to_set (zip parents related)).

(** The positional arguments of the closure [maybe_add_link]. *)
Record link_call : Type := {
  parent_event_code : string;
  call_pillar : string;
  call_related_indicator : string;
  call_impact_direction : string;
  call_impact_magnitude : string;
  call_lag_months : Z;
  call_evidence_basis : string
}.

(** The arguments [maybe_add_link] passes on to [add_impact_link]; the
    keyword arguments it leaves out take their defaults. *)
Definition call_args (c : link_call) (pid : cell) : link_args :=
  {| parent_id := pid;
     pillar := call_pillar c;
     related_indicator := call_related_indicator c;
     impact_direction := call_impact_direction c;
     impact_magnitude := call_impact_magnitude c;
     lag_months := call_lag_months c;
     evidence_basis := call_evidence_basis c;
     relationship_type := "intervention";
     comparable_country := "Ethiopia";
     link_confidence := "medium";
     link_notes := "" |}.

(** [maybe_add_link]: the closure reads [cols], [event_code_to_id] and
    [existing_link_keys] and rebinds the enclosing [df]; here the frame is
    passed in and returned. *)
Definition maybe_add_link (cols : list string) (event_code_to_id : gmap string cell)
    (link_keys : gset (string * string)) (c : link_call) (df : DataFrame)
  : result DataFrame :=
  match event_code_to_id !! parent_event_code c with
  | None => Ok df
  | Some pid =>
      let key := (py_str pid, call_related_indicator c) in
      if bool_decide (key ∈ link_keys) then Ok df
      else fst <$> add_impact_link df cols (call_args c pid)
  end.

(** The two event blocks of [main] (lines 168-198). *)
Definition interop_crossover : event_args :=
  {| indicator := "Interoperable P2P transfers surpass ATM cash withdrawals";
     indicator_code := "EVT_INTEROP_CROSSOVER";
     category := "infrastructure";
     event_date := "2024-01-01";
     source_name := "(Add official source)";
     source_type := "news";
     source_url := "(ADD_URL)";
     original_text := "Interoperable P2P digital transfers have surpassed ATM cash withdrawals.";
     confidence := "low";
     notes := "Replace (ADD_URL) and date with an official publication/press release." |}.

Definition fayda_rollout : event_args :=
  {| indicator := "Fayda Digital ID rollout milestone";
     indicator_code := "EVT_FAYDA_ROLLOUT";
     category := "policy";
     event_date := "2023-01-01";
     source_name := "Fayda/NIDP";
     source_type := "policy";
     source_url := "https://www.id.gov.et/";
     original_text := "Fayda digital ID program rollout (milestone date).";
     confidence := "medium";
     notes := "Replace with a verified milestone date/quote from id.gov.et once located." |}.

(** [if code not in event_code_to_id: df, evt = add_event(...);
     event_code_to_id[code] = evt[ID_COL]] *)
Definition add_event_if_absent (cols : list string) (a : event_args)
    (st : DataFrame * gmap string cell) : result (DataFrame * gmap string cell) :=
  let '(df, event_code_to_id) := st in
  match event_code_to_id !! indicator_code a with
  | Some _ => Ok (df, event_code_to_id)
  | None =>
      '(df2, evt) ← add_event df cols a;
      Ok (df2, <[indicator_code a := cell_at ID_COL evt]> event_code_to_id)
  end.

(** The five calls of [maybe_add_link] (lines 245-269), in order. *)
Definition link_calls : list link_call :=
  [ {| parent_event_code := "EVT_TELEBIRR"; call_pillar := "ACCESS";
       call_related_indicator := "ACC_MM_ACCOUNT";
       call_impact_direction := "positive"; call_impact_magnitude := "2.0";
       call_lag_months := 6;
       call_evidence_basis := "Telebirr launch expected to raise mobile money account ownership after onboarding/agent rollout lag." |};
    {| parent_event_code := "EVT_TELEBIRR"; call_pillar := "USAGE";
       call_related_indicator := "USG_DIGITAL_PAYMENT";
       call_impact_direction := "positive"; call_impact_magnitude := "3.0";
       call_lag_months := 6;
       call_evidence_basis := "Mobile money launch expands payment capability; lag reflects time for adoption and ecosystem growth." |};
    {| parent_event_code := "EVT_SAFARICOM"; call_pillar := "USAGE";
       call_related_indicator := "USG_MPESA_USERS";
       call_impact_direction := "positive"; call_impact_magnitude := "1.0";
       call_lag_months := 6;
       call_evidence_basis := "New operator entry increases distribution and product competition; effects realized after rollout." |};
    {| parent_event_code := "EVT_INTEROP_CROSSOVER"; call_pillar := "USAGE";
       call_related_indicator := "USG_DIGITAL_PAYMENT";
       call_impact_direction := "positive"; call_impact_magnitude := "2.0";
       call_lag_months := 0;
       call_evidence_basis := "Interoperability milestone indicates mainstreaming of digital P2P vs cash withdrawals." |};
    {| parent_event_code := "EVT_FAYDA_ROLLOUT"; call_pillar := "ACCESS";
       call_related_indicator := "ACC_OWNERSHIP";
       call_impact_direction := "positive"; call_impact_magnitude := "1.0";
       call_lag_months := 12;
       call_evidence_basis := "Digital ID reduces KYC barriers; expected gradual effect on formal account ownership." |} ].

(** A run of calls of the closure, threading the frame. *)
Fixpoint add_links (cols : list string) (event_code_to_id : gmap string cell)
    (link_keys : gset (string * string)) (calls : list link_call) (df : DataFrame)
  : result DataFrame :=
  match calls with
  | [] => Ok df
  | c :: calls' =>
      df' ← maybe_add_link cols event_code_to_id link_keys c df;
      add_links cols event_code_to_id link_keys calls' df'
  end.

(** Lines 156-207 of [main]: the correction pass and the event phase. *)
Definition event_phase (cols : list string) (df0 : DataFrame) : result DataFrame :=
  let df := fix_collector_fields df0 in
  event_code_to_id ← event_lookup df;
  st ← add_event_if_absent cols interop_crossover (df, event_code_to_id);
  st ← add_event_if_absent cols fayda_rollout st;
  Ok (fst st).

(** Lines 200-269 of [main]: the refreshed lookup and the link phase. *)
Definition link_phase (cols : list string) (df : DataFrame) : result DataFrame :=
  event_code_to_id ← event_lookup df;
  link_keys ← existing_link_keys df;
  add_links cols event_code_to_id link_keys link_calls df.

(** [main] between reading the table and writing it (lines 149-269, the
    column check apart): the whole transform on a loaded table. *)
Definition enrich (df0 : DataFrame) : result DataFrame :=
  let cols := columns df0 in
  df ← event_phase cols df0;
  link_phase cols df.

(* ===================================================================== *)
(** * The process: files, streams and exit status                          *)
(* ===================================================================== *)

(** What is at [RAW_PATH]: nothing, something [pd.read_csv] raises on, or a
    file it loads as a table. *)
Inductive raw_file : Type :=
  | Absent
  | Unreadable
  | Loads (df : DataFrame).

(** A printed line: literal text, or the rendering of a [value_counts]
    series (its layout and the order of its entries are pandas' own). *)
Inductive line : Type :=
  | Text (s : string)
  | Counts (vc : list (cell * nat)).

Record World : Type := mkWorld {
  raw : raw_file;                  (* the file at RAW_PATH *)
  out : option DataFrame;          (* the file at OUT_PATH, if any *)
  processed_dir : bool;            (* data/processed exists *)
  stdout : list line;
  stderr : list line
}.

(** How the process ends: [raise SystemExit(main())], or a traceback. *)
Inductive outcome : Type :=
  | Exit (code : Z)
  | Uncaught (e : exn).

Definition ensure_dirs (w : World) : World :=
  {| raw := raw w; out := out w; processed_dir := true;
     stdout := stdout w; stderr := stderr w |}.

Definition print_err (l : line) (w : World) : World :=
  {| raw := raw w; out := out w; processed_dir := processed_dir w;
     stdout := stdout w; stderr := stderr w ++ [l] |}.

Definition print (l : line) (w : World) : World :=
  {| raw := raw w; out := out w; processed_dir := processed_dir w;
     stdout := stdout w ++ [l]; stderr := stderr w |}.

(** [df.to_csv(OUT_PATH, index=False)] *)
Definition to_csv (df : DataFrame) (w : World) : World :=
  {| raw := raw w; out := Some df; processed_dir := processed_dir w;
     stdout := stdout w; stderr := stderr w |}.

(** [series.value_counts(dropna=False)]: each distinct value with the
    number of its occurrences. *)
Definition value_counts (l : list cell) : list (cell * nat) :=
  map (fun v => (v, length (filter (fun x => bool_decide (x = v)) l)))
      (remove_dups l).

Definition required_columns : list string :=
  [ID_COL; "record_type"; "indicator_code"; DATE_COL].

Definition main (w0 : World) : outcome * World :=
  let w := ensure_dirs w0 in
  match raw w with
  | Absent =>
      (Exit 2, print_err (Text ("[ERROR] Raw dataset not found at: " +:+ RAW_PATH)) w)
  | Unreadable => (Uncaught ReadError, w)
  | Loads df =>
      match List.find (fun c => negb (has_col df c)) required_columns with
      | Some c =>
          (Exit 2, print_err (Text ("[ERROR] Missing required column: " +:+ c)) w)
      | None =>
          match enrich df with
          | Raise e => (Uncaught e, w)
          | Ok df' =>
              let w := to_csv df' w in
              let w := print (Text ("Wrote: " +:+ OUT_PATH)) w in
              match getcol df' "record_type" with
              | Raise e => (Uncaught e, w)
              | Ok rt => (Exit 0, print (Counts (value_counts rt)) w)
              end
          end
      end
  end.

(* ===================================================================== *)
(** * Vocabulary of the statements                                         *)
(* ===================================================================== *)

(** An identifier [x] that reads as prefix [P], an underscore and digits
    whose decimal value is [k] (the pattern of [next_id], with the final
    newline that [$] lets through). *)
Definition parses_as (P x : string) (k : Z) : Prop :=
  ∃ ds : string,
    (x = P +:+ "_" +:+ ds ∨ x = P +:+ "_" +:+ ds +:+ String Py.newline "")
    ∧ ds ≠ "" ∧ Py.all_digits ds = true ∧ Py.int ds = Some k.

(** The number zero-padded to width 4, as [P_NNNN] shows it. *)
Definition padded_04 (n : Z) : string :=
  Py.zeros (4 - String.length (Py.str_int n)) +:+ Py.str_int n.

(** The number [next_id] formats. *)
Definition next_number (P : string) (ids : list string) : Z :=
  match Py.max (id_numbers P ids) with
  | Some m => (m + 1)%Z
  | None => 1%Z
  end.

(** The [record_id] column, as [next_id] receives it. *)
Definition ids (df : DataFrame) : list cell := map (cell_at ID_COL) (rows df).

(** The labels [add_event] and [add_impact_link] assign. *)
Definition event_fields : list string :=
  [ID_COL; "record_type"; "category"; "pillar"; "indicator"; "indicator_code";
   "value_text"; "value_type"; DATE_COL; "fiscal_year"; "gender"; "location";
   "region"; "source_name"; "source_type"; "source_url"; "confidence";
   "collected_by"; "collection_date"; "original_text"; "notes"].

Definition link_fields : list string :=
  [ID_COL; "record_type"; "parent_id"; "pillar"; "related_indicator";
   "relationship_type"; "impact_direction"; "impact_magnitude"; "lag_months";
   "evidence_basis"; "comparable_country"; "confidence"; "collected_by";
   "collection_date"; "notes"].

(** One append by [add_event], one by [add_impact_link]. *)
Definition event_step (cols : list string) (df : DataFrame) (row : Row) : Prop :=
  ∃ (a : event_args) (y : Z), row = event_row cols a (next_id (ids df) "EVT") y.

Definition link_step (cols : list string) (df : DataFrame) (row : Row) : Prop :=
  ∃ a : link_args, row = link_row cols a (next_id (ids df) "LNK").

Definition append_step (cols : list string) (df : DataFrame) (row : Row) : Prop :=
  event_step cols df row ∨ link_step cols df row.

(** [grows step df df']: [df'] is [df] after a run of appends, each allowed
    by [step] on the frame it is appended to. *)
Inductive grows (step : DataFrame → Row → Prop) (df : DataFrame) : DataFrame → Prop :=
  | grows_refl : grows step df df
  | grows_step (df' : DataFrame) (row : Row) :
      grows step df df' → step df' row → grows step df (concat_row df' row).

(** The dict [event_lookup] builds from the rows. *)
Definition lookup_of (rs : list Row) : gmap string cell :=
  fold_left lookup_step (filter (fun r => is_kind "event" r) rs) ∅.

(** The set [existing_link_keys] builds. *)
Definition link_keys_of (df : DataFrame) : gset (string * string) :=
  let existing_links := filter (fun r => is_kind "impact_link" r) (rows df) in
  list_to_set (zip
    (py_str <$> getcol_or_empty existing_links (has_col df "parent_id") "parent_id")
    (py_str <$> getcol_or_empty existing_links (has_col df "related_indicator")
                  "related_indicator")).

(** A key is covered by a frame that has both key columns and a row typed
    [impact_link] with that key. *)
Definition covered (df : DataFrame) (key : string * string) : Prop :=
  "parent_id" ∈ columns df ∧ "related_indicator" ∈ columns df
  ∧ ∃ r : Row, r ∈ rows df ∧ is_kind "impact_link" r = true ∧ link_key r = key.

(** Every required column is a label of the frame. *)
Definition has_required (df : DataFrame) : Prop :=
  ∀ c : string, c ∈ required_columns → c ∈ columns df.

(** The key a call of [maybe_add_link] forms once its parent resolves. *)
Definition call_key (lk : gmap string cell) (c : link_call) : string * string :=
  (py_str (default NA (lk !! parent_event_code c)), call_related_indicator c).

(** The calls that get past both guards of [maybe_add_link]. *)
Definition passes (lk : gmap string cell) (ks : gset (string * string))
    (c : link_call) : bool :=
  match lk !! parent_event_code c with
  | Some _ => bool_decide (call_key lk c ∉ ks)
  | None => false
  end.

(** The column check of [main] passes. *)
Definition required_ok (df : DataFrame) : bool :=
  forallb (has_col df) required_columns.

(** Every key of every row is a label of the frame, as in any frame pandas
    builds. *)
Definition well_formed (df : DataFrame) : bool :=
  forallb (fun r => forallb (has_col df) (keys r)) (rows df).

(** One observation under the four required columns. *)
Definition table_min : DataFrame :=
  {| columns := ["record_id"; "record_type"; "indicator_code"; "observation_date"];
     rows := [ [("record_id", Str "REC_0001"); ("record_type", Str "observation");
                ("indicator_code", Str "ACC_OWNERSHIP");
                ("observation_date", Str "2021-12-31")] ] |}.

(** The swap the corrector is for: a date under [collected_by], nothing
    under [collection_date]. *)
Definition row_swap : Row :=
  [("record_id", Str "REC_0001"); ("record_type", Str "observation");
   ("indicator_code", Str "ACC_OWNERSHIP"); ("observation_date", Str "2021-12-31");
   ("collected_by", Str "2025-01-20"); ("collection_date", NA)].

Definition table_swap : DataFrame :=
  {| columns := ["record_id"; "record_type"; "indicator_code"; "observation_date";
                 "collected_by"; "collection_date"];
     rows := [row_swap] |}.

(** A date under [collected_by] in a table that has no [collection_date]
    column: the first run leaves the row alone and brings the column in. *)
Definition table_no_date_column : DataFrame :=
  {| columns := ["record_id"; "record_type"; "indicator_code"; "observation_date";
                 "collected_by"];
     rows := [ [("record_id", Str "EVT_0001"); ("record_type", Str "event");
                ("indicator_code", Str "EVT_TELEBIRR");
                ("observation_date", Str "2021-05-17");
                ("collected_by", Str "2025-01-20")] ] |}.

(** Two events that share one record identifier. *)
Definition table_shared_id : DataFrame :=
  {| columns := ["record_id"; "record_type"; "indicator_code"; "observation_date"];
     rows := [ [("record_id", Str "EVT_0001"); ("record_type", Str "event");
                ("indicator_code", Str "EVT_TELEBIRR");
                ("observation_date", Str "2021-05-17")];
               [("record_id", Str "EVT_0001"); ("record_type", Str "event");
                ("indicator_code", Str "EVT_INTEROP_CROSSOVER");
                ("observation_date", Str "2024-01-01")] ] |}.

(** The third call of the link phase, on a lookup that has no Safaricom
    event. *)
Definition call_safaricom : link_call :=
  {| parent_event_code := "EVT_SAFARICOM"; call_pillar := "USAGE";
     call_related_indicator := "USG_MPESA_USERS";
     call_impact_direction := "positive"; call_impact_magnitude := "1.0";
     call_lag_months := 6;
     call_evidence_basis := "New operator entry increases distribution and product competition; effects realized after rollout." |}.

(** Scenario B: the Fayda event is already in the input. *)
Definition table_fayda : DataFrame :=
  {| columns := ["record_id"; "record_type"; "indicator_code"; "observation_date"];
     rows := [ [("record_id", Str "EVT_0004"); ("record_type", Str "event");
                ("indicator_code", Str "EVT_FAYDA_ROLLOUT");
                ("observation_date", Str "2023-06-01")] ] |}.

(** What the scenarios look at in a row. *)
Definition digest (r : Row) : list cell :=
  [cell_at ID_COL r; cell_at "record_type" r; cell_at "indicator_code" r;
   cell_at "fiscal_year" r; cell_at "parent_id" r; cell_at "related_indicator" r].

(** Scenario C: the record-type column is missing. *)
Definition table_no_record_type : DataFrame :=
  {| columns := ["record_id"; "indicator_code"; "observation_date"];
     rows := [ [("record_id", Str "REC_0001"); ("indicator_code", Str "ACC_OWNERSHIP");
                ("observation_date", Str "2021-12-31")] ] |}.

(** The row a code resolves to is the last row typed [event] that carries
    the code. *)
Definition resolves (rs : list Row) (c : string) (v : cell) : Prop :=
  ∃ (i : nat) (r : Row),
    rs !! i = Some r
    ∧ is_kind "event" r = true
    ∧ cell_at "indicator_code" r = Str c
    ∧ cell_at ID_COL r = v
    ∧ ∀ (j : nat) (r' : Row),
        (i < j)%nat → rs !! j = Some r' → is_kind "event" r' = true →
        cell_at "indicator_code" r' ≠ Str c.


(** A table that already holds the Telebirr event and its first link. *)
Definition table_linked : DataFrame :=
  {| columns := ["record_id"; "record_type"; "indicator_code"; "observation_date";
                 "parent_id"; "related_indicator"];
     rows := [ [("record_id", Str "EVT_0001"); ("record_type", Str "event");
                ("indicator_code", Str "EVT_TELEBIRR");
                ("observation_date", Str "2021-05-17");
                ("parent_id", NA); ("related_indicator", NA)];
               [("record_id", Str "LNK_0001"); ("record_type", Str "impact_link");
                ("indicator_code", NA); ("observation_date", NA);
                ("parent_id", Str "EVT_0001");
                ("related_indicator", Str "ACC_MM_ACCOUNT")] ] |}.

(** The first two calls of the link phase. *)
Definition call_telebirr_account : link_call :=
  {| parent_event_code := "EVT_TELEBIRR"; call_pillar := "ACCESS";
     call_related_indicator := "ACC_MM_ACCOUNT";
     call_impact_direction := "positive"; call_impact_magnitude := "2.0";
     call_lag_months := 6;
     call_evidence_basis := "Telebirr launch expected to raise mobile money account ownership after onboarding/agent rollout lag." |}.

(** An identifier [x] that [next_id] reads under the limit on digits:
    prefix [P], an underscore and at most 4300 digits of value [k]. *)
Definition reads_as (P x : string) (k : Z) : Prop :=
  ∃ ds : string,
    (x = P +:+ "_" +:+ ds ∨ x = P +:+ "_" +:+ ds +:+ String Py.newline "")
    ∧ ds ≠ "" ∧ Py.all_digits ds = true
    ∧ (String.length ds ≤ Py.int_max_str_digits)%nat
    ∧ Py.int ds = Some k.

(** The number [next_id_limited] formats. *)
Definition next_number_limited (P : string) (ids : list string) : Z :=
  match Py.max (id_numbers_limited P ids) with
  | Some m => (m + 1)%Z
  | None => 1%Z
  end.

(** A cell that is text or null. *)
Definition text_or_null (c : cell) : bool :=
  match c with
  | NA | Str _ => true
  | Int _ | Float _ => false
  end.

Definition text_column (c : string) (df : DataFrame) : bool :=
  forallb (fun r => text_or_null (cell_at c r)) (rows df).

(** The identifiers of the frame, those under [record_id] and those under
    [parent_id], are text or null: the frame of a file whose identifiers are
    not all numbers. *)
Definition text_ids (df : DataFrame) : bool :=
  text_column ID_COL df && text_column "parent_id" df.

(** The two fields of a row that hold a number. *)
Definition numeric_fields : list string := ["impact_magnitude"; "lag_months"].

(** A row whose cells are text or null outside the numeric fields. *)
Definition text_row (r : Row) : Prop :=
  ∀ c : string, c ∉ numeric_fields → text_or_null (cell_at c r) = true.

(** [r'] shows the text and the nulls of [r] where [r] has them. *)
Definition same_text (r r' : Row) : Prop :=
  ∀ c : string, text_or_null (cell_at c r) = true → cell_at c r' = cell_at c r.

(** Every record identifier of the frame shows as at most 4300
    characters. *)
Definition short_ids (df : DataFrame) : bool :=
  forallb (fun c => (String.length (py_str c) <=? Py.int_max_str_digits)%nat)
          (ids df).

(* ===================================================================== *)
(** * The string layer on examples                                         *)
(* ===================================================================== *)

Example match_id_plain : Py.match_id "EVT" "EVT_0012" = Some "0012".
Proof. reflexivity. Qed.

Example match_id_final_newline :
  Py.match_id "EVT" (String.append "EVT_7" (String Py.newline EmptyString)) = Some "7".
Proof. reflexivity. Qed.

Example match_id_other_prefix : Py.match_id "EVT" "REC_0012" = None.
Proof. reflexivity. Qed.

Example match_id_no_digits : Py.match_id "EVT" "EVT_" = None.
Proof. reflexivity. Qed.

Example format_04d_7 : Py.format_04d 7 = "0007".
Proof. reflexivity. Qed.

Example format_04d_wide : Py.format_04d 12345 = "12345".
Proof. reflexivity. Qed.

Example match_date_ok : Py.match_date "2025-01-20" = true.
Proof. reflexivity. Qed.

Example match_date_name : Py.match_date "AbbyGailErm" = false.
Proof. reflexivity. Qed.

(* ===================================================================== *)
(** * Facts about the string layer                                        *)
(* ===================================================================== *)

Module PyFacts.
Import Py.

#[local] Arguments String.append !_ _ / : simpl nomatch.

Lemma append_assoc (a b c : string) : (a +:+ b) +:+ c = a +:+ (b +:+ c).
Proof. induction a as [|x a IH]; simpl; [done | by f_equal]. Qed.

Lemma append_nil_r (a : string) : a +:+ "" = a.
Proof. induction a as [|x a IH]; simpl; [done | by f_equal]. Qed.

Lemma length_append (a b : string) :
  String.length (a +:+ b) = (String.length a + String.length b)%nat.
Proof. induction a as [|x a IH]; simpl; [done | by f_equal]. Qed.

Lemma strip_prefix_app (p r : string) : strip_prefix p (p +:+ r) = Some r.
Proof.
  induction p as [|a p IH]; simpl; [done |].
  by rewrite Ascii.eqb_refl.
Qed.

Lemma strip_prefix_Some (p s r : string) :
  strip_prefix p s = Some r → s = p +:+ r.
Proof.
  revert s; induction p as [|a p IH]; intros s; simpl.
  - by intros [= ->].
  - destruct s as [|b s]; [done |].
    destruct (Ascii.eqb_spec a b) as [->|]; [| done].
    intros H. by rewrite (IH _ H).
Qed.

Lemma is_digit_not_newline (a : ascii) : is_digit a = true → Ascii.eqb a newline = false.
Proof.
  destruct (Ascii.eqb_spec a newline) as [->|]; [| done].
  by vm_compute.
Qed.

Lemma before_dollar_digits (g : string) : all_digits g = true → before_dollar g = g.
Proof.
  induction g as [|a g IH]; simpl; [done |].
  intros [Ha Hg]%andb_prop.
  destruct g as [|b g].
  - by rewrite is_digit_not_newline.
  - by rewrite IH.
Qed.

Lemma before_dollar_newline (g : string) :
  before_dollar (g +:+ String newline "") = g.
Proof.
  induction g as [|a g IH]; simpl; [done |].
  rewrite IH. by destruct g.
Qed.

Lemma before_dollar_inv (s : string) :
  s = before_dollar s ∨ s = before_dollar s +:+ String newline "".
Proof.
  induction s as [|a s IH]; [by left |].
  destruct s as [|b s].
  - simpl. destruct (Ascii.eqb_spec a newline) as [->|]; [by right | by left].
  - change (before_dollar (String a (String b s)))
      with (String a (before_dollar (String b s))).
    set (t := String b s) in *.
    destruct IH as [IH|IH]; [left | right]; simpl; by f_equal.
Qed.

(** What [match_id] accepts: the prefix, an underscore, a non-empty run of
    digits, and then the end of the text or one final newline. *)
Lemma match_id_Some (p x g : string) :
  match_id p x = Some g ↔
  g ≠ "" ∧ all_digits g = true
  ∧ (x = p +:+ "_" +:+ g ∨ x = p +:+ "_" +:+ g +:+ String newline "").
Proof.
  unfold match_id. split.
  - destruct (strip_prefix (p +:+ "_") x) as [rest|] eqn:Hs; [| done].
    apply strip_prefix_Some in Hs.
    destruct (0 <? String.length (before_dollar rest))%nat eqn:Hl; [| done].
    destruct (all_digits (before_dollar rest)) eqn:Hd; [| done].
    simpl. intros [= <-]. split_and!.
    + intros E. rewrite E in Hl. done.
    + done.
    + rewrite Hs, !append_assoc.
      destruct (before_dollar_inv rest) as [E|E]; [left | right]; by rewrite <- E.
  - intros (Hne & Hd & [-> | ->]).
    + rewrite <- append_assoc, strip_prefix_app, before_dollar_digits by done.
      rewrite Hd. destruct g; done.
    + rewrite <- append_assoc, strip_prefix_app, before_dollar_newline.
      rewrite Hd. destruct g; done.
Qed.

Lemma all_digits_uint (d : uint) : all_digits (NilEmpty.string_of_uint d) = true.
Proof. induction d; simpl; done. Qed.

Lemma all_digits_app (a b : string) :
  all_digits (a +:+ b) = all_digits a && all_digits b.
Proof. induction a as [|x a IH]; simpl; [done | by rewrite IH, andb_assoc]. Qed.

Lemma all_digits_zeros (n : nat) : all_digits (zeros n) = true.
Proof. induction n; simpl; done. Qed.

Lemma uint_of_string_zeros (n : nat) (s : string) :
  Z.of_uint <$> NilEmpty.uint_of_string (zeros n +:+ s)
  = Z.of_uint <$> NilEmpty.uint_of_string s.
Proof.
  induction n as [|n IH]; simpl; [done |].
  rewrite <- IH. by destruct (NilEmpty.uint_of_string (zeros n +:+ s)).
Qed.

Lemma string_of_N_nonnil (n : N) :
  NilZero.string_of_uint (N.to_uint n) = NilEmpty.string_of_uint (N.to_uint n).
Proof.
  unfold NilZero.string_of_uint.
  destruct (N.to_uint n) eqn:E; try done.
  destruct n; simpl in E; [done |].
  by apply DecimalPos.Unsigned.to_uint_nonnil in E.
Qed.

Lemma string_of_N_nonempty (n : N) :
  (0 < String.length (NilZero.string_of_uint (N.to_uint n)))%nat.
Proof.
  unfold NilZero.string_of_uint.
  destruct (N.to_uint n); simpl; lia.
Qed.

Lemma format_04d_nonneg (n : Z) : (0 ≤ n)%Z → format_04d n = digits_04 n.
Proof.
  intros H. unfold format_04d, digits_04.
  by destruct (Z.ltb_spec n 0); [lia |].
Qed.

Lemma digits_04_all_digits (n : Z) : all_digits (digits_04 n) = true.
Proof.
  unfold digits_04.
  by rewrite all_digits_app, all_digits_zeros, string_of_N_nonnil, all_digits_uint.
Qed.

Lemma digits_04_length (n : Z) : (4 ≤ String.length (digits_04 n))%nat.
Proof.
  unfold digits_04. rewrite length_append.
  assert (Hz : ∀ k, String.length (zeros k) = k) by (induction k; simpl; lia).
  rewrite Hz. lia.
Qed.

Lemma int_digits_04 (n : Z) : (0 ≤ n)%Z → Py.int (digits_04 n) = Some n.
Proof.
  intros H. unfold Py.int.
  pose proof (digits_04_length n) as Hl.
  destruct (digits_04 n) eqn:E; [simpl in Hl; lia |].
  rewrite <- E. unfold digits_04.
  rewrite uint_of_string_zeros, string_of_N_nonnil, NilEmpty.usu.
  simpl. unfold Z.of_uint.
  change (Pos.of_uint (N.to_uint (Z.abs_N n))) with (N.of_uint (N.to_uint (Z.abs_N n))).
  rewrite DecimalN.Unsigned.of_to. f_equal. lia.
Qed.

(** [int] without the limit accepts every non-empty run of digits: on a
    matched group the [except ValueError] branch of [next_id] is taken only
    for the limit on digits ([int_limited]). *)
Lemma uint_of_char_digit (a : ascii) (d : uint) :
  is_digit a = true → is_Some (uint_of_char a (Some d)).
Proof.
  destruct a as [[|] [|] [|] [|] [|] [|] [|] [|]]; vm_compute; intros H;
    first [discriminate H | by eexists].
Qed.

Lemma int_digits (g : string) :
  g ≠ "" → all_digits g = true → is_Some (Py.int g).
Proof.
  intros Hne Hd. unfold Py.int. destruct g as [|a g]; [done |].
  clear Hne. revert a Hd. induction g as [|b g IH]; intros a Hd.
  - apply andb_prop in Hd as [Ha _].
    change (NilEmpty.uint_of_string (String a ""))
      with (uint_of_char a (Some Nil)).
    destruct (uint_of_char_digit a Nil Ha) as [d ->]. by eexists.
  - apply andb_prop in Hd as [Ha Hd].
    specialize (IH b Hd).
    change (NilEmpty.uint_of_string (String a (String b g)))
      with (uint_of_char a (NilEmpty.uint_of_string (String b g))).
    destruct (NilEmpty.uint_of_string (String b g)) as [d|];
      [| by destruct IH].
    destruct (uint_of_char_digit a d Ha) as [d' ->]. by eexists.
Qed.

Lemma max_Some (nums : list Z) (m : Z) :
  Py.max nums = Some m → m ∈ nums ∧ ∀ k, k ∈ nums → (k ≤ m)%Z.
Proof.
  destruct nums as [|n ns]; [done |]. simpl. intros [= <-].
  revert n. induction ns as [|a ns IH]; intros n; simpl.
  - split; [by left |]. intros k ->%list_elem_of_singleton. lia.
  - destruct (IH (Z.max n a)) as [Hin Hle]. split.
    + apply elem_of_cons in Hin as [E|Hin].
      * rewrite E. destruct (Z.max_spec n a) as [[_ ->]|[_ ->]]; [right |]; by left.
      * right. by right.
    + intros k Hk.
      assert (Hna : (Z.max n a ≤ fold_left Z.max ns (Z.max n a))%Z)
        by (apply Hle; by left).
      apply elem_of_cons in Hk as [->|Hk]; [lia |].
      apply elem_of_cons in Hk as [->|Hk]; [lia |].
      apply Hle. by right.
Qed.

Lemma max_None (nums : list Z) : Py.max nums = None → nums = [].
Proof. by destruct nums. Qed.

End PyFacts.

(* ===================================================================== *)
(** * The identifier generator                                            *)
(* ===================================================================== *)

Section NextId.
Import Py PyFacts.

Lemma str_int_nonneg (n : Z) :
  (0 ≤ n)%Z → str_int n = NilZero.string_of_uint (N.to_uint (Z.abs_N n)).
Proof. intros H. destruct n; [done | done | lia]. Qed.

Lemma padded_04_digits (n : Z) : (0 ≤ n)%Z → padded_04 n = digits_04 n.
Proof. intros H. unfold padded_04, digits_04. by rewrite str_int_nonneg. Qed.

Lemma id_strings_Str (S : list string) : id_strings (Str <$> S) = S.
Proof.
  unfold id_strings. induction S as [|x S IH]; [done |].
  simpl. by f_equal.
Qed.

Lemma id_numbers_elem (P : string) (ids : list string) (k : Z) :
  k ∈ id_numbers P ids ↔ ∃ x, x ∈ ids ∧ parses_as P x k.
Proof.
  unfold id_numbers. rewrite list_elem_of_omap. split.
  - intros (x & Hx & Hk). exists x. split; [done |].
    destruct (match_id P x) as [g|] eqn:Hm; [| done]. simpl in Hk.
    apply match_id_Some in Hm as (Hne & Hd & Hsh). by exists g.
  - intros (x & Hx & g & Hsh & Hne & Hd & Hk). exists x. split; [done |].
    assert (Hm : match_id P x = Some g) by (by apply match_id_Some).
    by rewrite Hm.
Qed.

Lemma id_numbers_nonneg (P : string) (ids : list string) (k : Z) :
  k ∈ id_numbers P ids → (0 ≤ k)%Z.
Proof.
  intros (x & _ & g & _ & _ & _ & Hk)%id_numbers_elem.
  unfold Py.int in Hk. destruct g; [done |].
  destruct (NilEmpty.uint_of_string _); simplify_eq/=.
  unfold Z.of_uint. lia.
Qed.

Lemma next_number_pos (P : string) (ids : list string) : (1 ≤ next_number P ids)%Z.
Proof.
  unfold next_number. destruct (Py.max _) as [m|] eqn:E; [| lia].
  apply max_Some in E as [Hin _]. apply id_numbers_nonneg in Hin. lia.
Qed.

Lemma next_number_above (P : string) (ids : list string) (k : Z) :
  k ∈ id_numbers P ids → (k < next_number P ids)%Z.
Proof.
  intros Hk. unfold next_number. destruct (Py.max _) as [m|] eqn:E.
  - apply max_Some in E as [_ Hle]. specialize (Hle _ Hk). lia.
  - apply max_None in E. rewrite E in Hk. by apply elem_of_nil in Hk.
Qed.

Lemma next_number_least (P : string) (ids : list string) :
  next_number P ids = 1%Z ∨ (next_number P ids - 1)%Z ∈ id_numbers P ids.
Proof.
  unfold next_number. destruct (Py.max _) as [m|] eqn:E; [right | by left].
  apply max_Some in E as [Hin _]. by replace (m + 1 - 1)%Z with m by lia.
Qed.

Lemma next_id_eq (ids : list cell) (P : string) :
  next_id ids P = P +:+ "_" +:+ digits_04 (next_number P (id_strings ids)).
Proof.
  unfold next_id. fold (next_number P (id_strings ids)).
  rewrite format_04d_nonneg; [done |].
  pose proof (next_number_pos P (id_strings ids)). lia.
Qed.

(** The identifier handed out is none of the identifiers it was derived
    from. *)
Lemma next_id_not_in (ids : list cell) (P : string) :
  next_id ids P ∉ id_strings ids.
Proof.
  intros Hin. rewrite next_id_eq in Hin.
  set (n := next_number P (id_strings ids)) in *.
  assert (Hn : (1 ≤ n)%Z) by apply next_number_pos.
  assert (Hk : n ∈ id_numbers P (id_strings ids)).
  { apply id_numbers_elem. eexists. split; [exact Hin |].
    exists (digits_04 n). split_and!.
    - by left.
    - intros E. pose proof (digits_04_length n) as Hl. rewrite E in Hl.
      simpl in Hl. lia.
    - apply digits_04_all_digits.
    - apply int_digits_04. lia. }
  apply next_number_above in Hk. unfold n in Hk. lia.
Qed.

End NextId.

(** With the limit on digits switched off, which is the [next_id] the rest
    of the script is modelled with: for every prefix [P] and every list [S]
    of identifier strings, [next_id] returns [P], an underscore and a number
    [n] zero-padded to width 4; this identifier is not in [S]; [n] exceeds
    the number of every identifier of [S] that reads as [P_digits], and is
    one more than one of them, or 1 when there is none.  Under the limit the
    same holds up to 4300 digits ([next_id_limited_successor]). *)
Theorem next_id_fresh_successor (P : string) (S : list string) :
  ∃ n : Z,
    next_id (Str <$> S) P = P +:+ "_" +:+ padded_04 n
    ∧ (1 ≤ n)%Z
    ∧ (next_id (Str <$> S) P ∉ S)
    ∧ (∀ x k, x ∈ S → parses_as P x k → (k < n)%Z)
    ∧ (n = 1%Z ∨ ∃ x, x ∈ S ∧ parses_as P x (n - 1))
    ∧ ((∀ x k, x ∈ S → ¬ parses_as P x k) → n = 1%Z)
    ∧ (∀ ds, ds ≠ "" → Py.all_digits ds = true →
         P +:+ "_" +:+ ds ∈ S → ∃ k, parses_as P (P +:+ "_" +:+ ds) k ∧ (k < n)%Z).
Proof.
  exists (next_number P S).
  pose proof (next_number_pos P S) as Hpos.
  assert (Hleast : next_number P S = 1%Z
                   ∨ ∃ x, x ∈ S ∧ parses_as P x (next_number P S - 1)).
  { destruct (next_number_least P S) as [E|E]; [by left | right].
    by apply id_numbers_elem in E. }
  split_and!.
  - rewrite next_id_eq, id_strings_Str, padded_04_digits; [done | lia].
  - done.
  - pose proof (next_id_not_in (Str <$> S) P) as H.
    by rewrite id_strings_Str in H.
  - intros x k Hx Hp. apply next_number_above, id_numbers_elem. eauto.
  - done.
  - intros Hnone. destruct Hleast as [E|(x & Hx & Hp)]; [done |].
    by destruct (Hnone _ _ Hx Hp).
  - intros ds Hne Hd Hin. destruct (PyFacts.int_digits ds Hne Hd) as [k Hk].
    assert (Hp : parses_as P (P +:+ "_" +:+ ds) k).
    { exists ds. split_and!; try done. by left. }
    exists k. split; [done |].
    apply next_number_above, id_numbers_elem. eauto.
Qed.

Example next_id_empty : next_id [] "REC" = "REC_0001".
Proof. reflexivity. Qed.

Example next_id_mixed :
  next_id [Str "EVT_0007"; NA; Str "EVT_12"; Str "REC_0100"; Str "EVT_x"; Str "evt_0900"] "EVT"
  = "EVT_0013".
Proof. reflexivity. Qed.

(** ** The generator under the interpreter's limit on digits *)

Section NextIdLimited.
Import Py PyFacts.

Lemma limit_ge_4 : (4 ≤ int_max_str_digits)%nat.
Proof. apply Nat.leb_le. vm_compute. reflexivity. Qed.

Lemma int_limited_Some (g : string) (k : Z) :
  int_limited g = Some k
  ↔ (String.length g ≤ int_max_str_digits)%nat ∧ Py.int g = Some k.
Proof.
  unfold int_limited.
  destruct (Nat.ltb_spec int_max_str_digits (String.length g)) as [H|H].
  - split; [done |]. intros [H' _]. lia.
  - split; [done |]. by intros [_ ?].
Qed.

Lemma reads_as_parses (P x : string) (k : Z) : reads_as P x k → parses_as P x k.
Proof. intros (ds & ? & ? & ? & _ & ?). by exists ds. Qed.

Lemma id_numbers_limited_elem (P : string) (ids : list string) (k : Z) :
  k ∈ id_numbers_limited P ids ↔ ∃ x, x ∈ ids ∧ reads_as P x k.
Proof.
  unfold id_numbers_limited. rewrite list_elem_of_omap. split.
  - intros (x & Hx & Hk). exists x. split; [done |].
    destruct (match_id P x) as [g|] eqn:Hm; [| done].
    change (int_limited g = Some k) in Hk.
    apply int_limited_Some in Hk as [Hl Hk].
    apply match_id_Some in Hm as (Hne & Hd & Hsh). by exists g.
  - intros (x & Hx & g & Hsh & Hne & Hd & Hl & Hk). exists x. split; [done |].
    assert (Hm : match_id P x = Some g) by (by apply match_id_Some).
    rewrite Hm. change (int_limited g = Some k). by apply int_limited_Some.
Qed.

Lemma id_numbers_limited_nonneg (P : string) (ids : list string) (k : Z) :
  k ∈ id_numbers_limited P ids → (0 ≤ k)%Z.
Proof.
  intros (x & Hx & Hr)%id_numbers_limited_elem.
  apply (id_numbers_nonneg P ids), id_numbers_elem.
  exists x. split; [done |]. by apply reads_as_parses.
Qed.

Lemma next_number_limited_pos (P : string) (ids : list string) :
  (1 ≤ next_number_limited P ids)%Z.
Proof.
  unfold next_number_limited. destruct (Py.max _) as [m|] eqn:E; [| lia].
  apply max_Some in E as [Hin _]. apply id_numbers_limited_nonneg in Hin. lia.
Qed.

Lemma next_number_limited_above (P : string) (ids : list string) (k : Z) :
  k ∈ id_numbers_limited P ids → (k < next_number_limited P ids)%Z.
Proof.
  intros Hk. unfold next_number_limited. destruct (Py.max _) as [m|] eqn:E.
  - apply max_Some in E as [_ Hle]. specialize (Hle _ Hk). lia.
  - apply max_None in E. rewrite E in Hk. by apply elem_of_nil in Hk.
Qed.

Lemma next_number_limited_least (P : string) (ids : list string) :
  next_number_limited P ids = 1%Z
  ∨ (next_number_limited P ids - 1)%Z ∈ id_numbers_limited P ids.
Proof.
  unfold next_number_limited. destruct (Py.max _) as [m|] eqn:E; [right | by left].
  apply max_Some in E as [Hin _]. by replace (m + 1 - 1)%Z with m by lia.
Qed.

Lemma nb_decimal_digits_str_int (n : Z) :
  (0 ≤ n)%Z → nb_decimal_digits n = String.length (str_int n).
Proof. intros H. unfold nb_decimal_digits. by rewrite str_int_nonneg. Qed.

Lemma zeros_length (k : nat) : String.length (zeros k) = k.
Proof. induction k; simpl; lia. Qed.

Lemma digits_04_length_limited (n : Z) :
  (nb_decimal_digits n ≤ int_max_str_digits)%nat →
  (String.length (digits_04 n) ≤ int_max_str_digits)%nat.
Proof.
  unfold nb_decimal_digits, digits_04. intros H.
  rewrite length_append, zeros_length.
  pose proof limit_ge_4. lia.
Qed.

Lemma next_id_limited_eq (ids : list cell) (P : string) :
  next_id_limited ids P
  = if (int_max_str_digits
        <? nb_decimal_digits (next_number_limited P (id_strings ids)))%nat
    then Raise ValueError
    else Ok (P +:+ "_" +:+ digits_04 (next_number_limited P (id_strings ids))).
Proof.
  unfold next_id_limited. fold (next_number_limited P (id_strings ids)).
  unfold format_04d_limited.
  destruct (_ <? _)%nat; [done |].
  rewrite format_04d_nonneg; [done |].
  pose proof (next_number_limited_pos P (id_strings ids)). lia.
Qed.

(** The text of the next number reads back as that number. *)
Lemma reads_as_own (P : string) (n : Z) :
  (0 ≤ n)%Z → (nb_decimal_digits n ≤ int_max_str_digits)%nat →
  reads_as P (P +:+ "_" +:+ digits_04 n) n.
Proof.
  intros Hn Hl. exists (digits_04 n). split_and!.
  - by left.
  - intros E. pose proof (digits_04_length n) as Hl'. rewrite E in Hl'.
    simpl in Hl'. lia.
  - apply digits_04_all_digits.
  - by apply digits_04_length_limited.
  - by apply int_digits_04.
Qed.

Lemma next_id_limited_not_in (ids : list cell) (P s : string) :
  next_id_limited ids P = Ok s → s ∉ id_strings ids.
Proof.
  rewrite next_id_limited_eq.
  set (n := next_number_limited P (id_strings ids)).
  destruct (Nat.ltb_spec int_max_str_digits (nb_decimal_digits n)) as [H|H];
    [done |].
  intros [= <-] Hin.
  assert (Hn : (1 ≤ n)%Z) by apply next_number_limited_pos.
  assert (Hk : n ∈ id_numbers_limited P (id_strings ids)).
  { apply id_numbers_limited_elem. eexists. split; [exact Hin |].
    apply reads_as_own; [lia | done]. }
  apply next_number_limited_above in Hk. unfold n in Hk. lia.
Qed.

Lemma next_number_limited_ext (P : string) (a b : list string) :
  (∀ k, k ∈ id_numbers_limited P a ↔ k ∈ id_numbers_limited P b) →
  next_number_limited P a = next_number_limited P b.
Proof.
  intros H.
  pose proof (next_number_limited_pos P a).
  pose proof (next_number_limited_pos P b).
  destruct (next_number_limited_least P a) as [Ea | Ha];
    destruct (next_number_limited_least P b) as [Eb | Hb].
  - congruence.
  - apply H, next_number_limited_above in Hb. lia.
  - apply H, next_number_limited_above in Ha. lia.
  - apply H, next_number_limited_above in Ha.
    apply H, next_number_limited_above in Hb. lia.
Qed.

Lemma reads_as_inj (P x : string) (k k' : Z) :
  reads_as P x k → reads_as P x k' → k = k'.
Proof.
  intros (g & Hsh & Hne & Hd & _ & Hk) (g' & Hsh' & Hne' & Hd' & _ & Hk').
  assert (Hm : match_id P x = Some g) by (by apply match_id_Some).
  assert (Hm' : match_id P x = Some g') by (by apply match_id_Some).
  congruence.
Qed.

Lemma next_number_limited_snoc_own (P : string) (l : list string) :
  (nb_decimal_digits (next_number_limited P l) ≤ int_max_str_digits)%nat →
  next_number_limited P (l ++ [P +:+ "_" +:+ digits_04 (next_number_limited P l)])
  = (next_number_limited P l + 1)%Z.
Proof.
  set (n := next_number_limited P l). intros Hlim.
  set (l' := l ++ [P +:+ "_" +:+ digits_04 n]).
  assert (Hn : (1 ≤ n)%Z) by apply next_number_limited_pos.
  assert (Hown : reads_as P (P +:+ "_" +:+ digits_04 n) n)
    by (apply reads_as_own; [lia | done]).
  assert (Hin : n ∈ id_numbers_limited P l').
  { apply id_numbers_limited_elem. eexists. split; [| exact Hown].
    unfold l'. apply elem_of_app. right. by apply list_elem_of_singleton. }
  pose proof (next_number_limited_above P l' n Hin) as Habove.
  destruct (next_number_limited_least P l') as [E | Hl]; [lia |].
  apply id_numbers_limited_elem in Hl as (x & Hx & Hp).
  unfold l' in Hx. apply elem_of_app in Hx as [Hx | Hx%list_elem_of_singleton].
  - assert (Hk : (next_number_limited P l' - 1)%Z ∈ id_numbers_limited P l)
      by (apply id_numbers_limited_elem; eauto).
    apply next_number_limited_above in Hk. fold n in Hk. lia.
  - subst x. pose proof (reads_as_inj _ _ _ _ Hp Hown). lia.
Qed.

(** Digits of a successor. *)
Lemma string_of_uint_length (d : uint) :
  String.length (NilEmpty.string_of_uint d) = nb_digits d.
Proof. induction d; simpl; by f_equal. Qed.

Lemma nb_digits_succ (d : uint) :
  (nb_digits (Little.succ d) ≤ S (nb_digits d))%nat.
Proof. induction d; simpl; lia. Qed.

Lemma N_to_uint_lu (n : N) : N.to_uint n = Decimal.rev (DecimalPos.Unsigned.to_lu n).
Proof. by destruct n. Qed.

Lemma nb_decimal_digits_N (n : N) :
  nb_decimal_digits (Z.of_N n) = nb_digits (DecimalPos.Unsigned.to_lu n).
Proof.
  unfold nb_decimal_digits.
  rewrite Zabs2N.id, string_of_N_nonnil, string_of_uint_length.
  by rewrite N_to_uint_lu, DecimalFacts.nb_digits_rev.
Qed.

Lemma nb_decimal_digits_succ (g : string) (k : Z) :
  Py.int g = Some k → (nb_decimal_digits (k + 1) ≤ S (String.length g))%nat.
Proof.
  unfold Py.int. destruct g as [|a g]; [done |].
  destruct (NilEmpty.uint_of_string (String a g)) as [d|] eqn:E; [| done].
  intros [= <-].
  apply NilEmpty.sus in E.
  assert (Hd : d ≠ Nil) by (intros ->; done).
  rewrite <- E, string_of_uint_length.
  unfold Z.of_uint.
  change (Pos.of_uint d) with (N.of_uint d).
  replace (Z.of_N (N.of_uint d) + 1)%Z with (Z.of_N (N.succ (N.of_uint d))) by lia.
  rewrite nb_decimal_digits_N, DecimalPos.Unsigned.to_lu_succ.
  etrans; [apply nb_digits_succ |].
  apply le_n_S.
  rewrite <- nb_decimal_digits_N. unfold nb_decimal_digits.
  rewrite Zabs2N.id, string_of_N_nonnil, string_of_uint_length.
  rewrite DecimalN.Unsigned.to_of. by apply DecimalFacts.nb_digits_unorm.
Qed.

Lemma reads_as_length (P x : string) (k : Z) :
  parses_as P x k →
  ∃ g, Py.int g = Some k ∧ (S (String.length g) ≤ String.length x)%nat.
Proof.
  intros (g & Hsh & _ & _ & Hk). exists g. split; [done |].
  destruct Hsh as [-> | ->]; rewrite !length_append; simpl; lia.
Qed.

Lemma parses_reads (P x : string) (k : Z) :
  (String.length x ≤ int_max_str_digits)%nat →
  parses_as P x k → reads_as P x k.
Proof.
  intros Hx (g & Hsh & Hne & Hd & Hk). exists g. split_and!; try done.
  destruct Hsh as [-> | ->]; rewrite !length_append in Hx; simpl in Hx; lia.
Qed.

(** On identifiers of at most 4300 characters the limit never bites:
    CPython's [next_id] is the [next_id] of the model. *)
Lemma next_id_limited_short (l : list cell) (P : string) :
  (∀ x, x ∈ id_strings l → (String.length x ≤ int_max_str_digits)%nat) →
  next_id_limited l P = Ok (next_id l P).
Proof.
  intros Hshort.
  assert (Hnum : ∀ k, k ∈ id_numbers_limited P (id_strings l)
                      ↔ k ∈ id_numbers P (id_strings l)).
  { intros k. rewrite id_numbers_limited_elem, id_numbers_elem.
    split; intros (x & Hx & Hp); exists x; (split; [done |]).
    - by apply reads_as_parses.
    - apply parses_reads; [by apply Hshort | done]. }
  assert (Hn : next_number_limited P (id_strings l) = next_number P (id_strings l)).
  { pose proof (next_number_limited_pos P (id_strings l)).
    pose proof (next_number_pos P (id_strings l)).
    destruct (next_number_limited_least P (id_strings l)) as [Ea | Ha];
      destruct (next_number_least P (id_strings l)) as [Eb | Hb].
    - congruence.
    - apply Hnum, next_number_limited_above in Hb. lia.
    - apply Hnum, next_number_above in Ha. lia.
    - apply Hnum, next_number_above in Ha.
      apply Hnum, next_number_limited_above in Hb. lia. }
  rewrite next_id_limited_eq, next_id_eq, Hn.
  set (n := next_number P (id_strings l)).
  destruct (Nat.ltb_spec int_max_str_digits (nb_decimal_digits n)) as [H|H];
    [| done].
  exfalso.
  destruct (next_number_least P (id_strings l)) as [E | Hin].
  - fold n in E. rewrite E in H.
    change (nb_decimal_digits 1) with 1%nat in H. pose proof limit_ge_4. lia.
  - fold n in Hin. apply id_numbers_elem in Hin as (x & Hx & Hp).
    apply reads_as_length in Hp as (g & Hg & Hl).
    apply nb_decimal_digits_succ in Hg.
    replace (n - 1 + 1)%Z with n in Hg by lia.
    specialize (Hshort x Hx). lia.
Qed.

End NextIdLimited.

(** C2.  For every prefix [P] and every list [S] of identifier strings,
    let [n] be one more than the largest number of an identifier of [S]
    that reads as [P_digits] with at most 4300 digits, or 1 when there is
    none.  When [n] has at most 4300 digits, [next_id] returns [P], an
    underscore and [n] zero-padded to width 4, and this identifier is not
    in [S]; when [n] has more digits, [next_id] raises [ValueError].
    Identifiers of any other shape, those with more than 4300 digits among
    them, take no part. *)
Theorem next_id_limited_successor (P : string) (S : list string) :
  ∃ n : Z,
    (1 ≤ n)%Z
    ∧ (∀ x k, x ∈ S → reads_as P x k → (k < n)%Z)
    ∧ (n = 1%Z ∨ ∃ x, x ∈ S ∧ reads_as P x (n - 1))
    ∧ ((∀ x k, x ∈ S → ¬ reads_as P x k) → n = 1%Z)
    ∧ ((String.length (Py.str_int n) ≤ Py.int_max_str_digits)%nat →
         next_id_limited (Str <$> S) P = Ok (P +:+ "_" +:+ padded_04 n)
         ∧ (P +:+ "_" +:+ padded_04 n ∉ S))
    ∧ ((Py.int_max_str_digits < String.length (Py.str_int n))%nat →
         next_id_limited (Str <$> S) P = Raise ValueError).
Proof.
  exists (next_number_limited P S).
  pose proof (next_number_limited_pos P S) as Hpos.
  assert (Hleast : next_number_limited P S = 1%Z
                   ∨ ∃ x, x ∈ S ∧ reads_as P x (next_number_limited P S - 1)).
  { destruct (next_number_limited_least P S) as [E|E]; [by left | right].
    by apply id_numbers_limited_elem in E. }
  assert (Heq := next_id_limited_eq (Str <$> S) P).
  rewrite id_strings_Str in Heq.
  rewrite <- nb_decimal_digits_str_int by lia.
  split_and!.
  - done.
  - intros x k Hx Hp.
    apply next_number_limited_above, id_numbers_limited_elem. eauto.
  - done.
  - intros Hnone. destruct Hleast as [E|(x & Hx & Hp)]; [done |].
    by destruct (Hnone _ _ Hx Hp).
  - intros Hl.
    destruct (Nat.ltb_spec Py.int_max_str_digits
                (Py.nb_decimal_digits (next_number_limited P S))) as [H|H];
      [lia |].
    rewrite padded_04_digits by lia. split; [done |].
    pose proof (next_id_limited_not_in (Str <$> S) P _ Heq) as Hnot.
    by rewrite id_strings_Str in Hnot.
  - intros Hl.
    by destruct (Nat.ltb_spec Py.int_max_str_digits
                (Py.nb_decimal_digits (next_number_limited P S))) as [H|H];
      [| lia].
Qed.

(** C2, counterexample.  The claim as the specification words it fails at
    the limit on digits: an identifier of 4300 nines is read, and
    formatting its successor raises instead of returning an identifier. *)
Lemma next_id_raises_at_limit :
  next_id_limited [Str ("EVT_" +:+ Py.nines 4300)] "EVT" = Raise ValueError.
Proof. vm_compute. reflexivity. Qed.

(** An identifier with more digits than the limit is passed over. *)
Example next_id_skips_beyond_limit :
  next_id_limited [Str "EVT_0007"; Str ("EVT_" +:+ Py.nines 4301)] "EVT"
  = Ok "EVT_0008".
Proof. vm_compute. reflexivity. Qed.

(* ===================================================================== *)
(** * Dicts and rows                                                       *)
(* ===================================================================== *)

Section Dict.

Lemma dict_get_set_eq (k : string) (v : cell) (d : Row) :
  dict_get k (dict_set k v d) = Some v.
Proof.
  induction d as [|[k' v'] d IH]; simpl.
  - by rewrite String.eqb_refl.
  - destruct (String.eqb_spec k k') as [->|Hne]; simpl.
    + by rewrite String.eqb_refl.
    + by destruct (String.eqb_spec k k').
Qed.

Lemma dict_get_set_ne (k k' : string) (v : cell) (d : Row) :
  k ≠ k' → dict_get k' (dict_set k v d) = dict_get k' d.
Proof.
  intros Hne. induction d as [|[k0 v0] d IH]; simpl.
  - destruct (String.eqb_spec k' k); [congruence | done].
  - destruct (String.eqb_spec k k0) as [->|Hk]; simpl.
    + by destruct (String.eqb_spec k' k0); [congruence |].
    + by rewrite IH.
Qed.

Lemma cell_at_set_eq (k : string) (v : cell) (d : Row) :
  cell_at k (dict_set k v d) = v.
Proof. unfold cell_at. by rewrite dict_get_set_eq. Qed.

Lemma cell_at_set_ne (k k' : string) (v : cell) (d : Row) :
  k ≠ k' → cell_at k' (dict_set k v d) = cell_at k' d.
Proof. intros H. unfold cell_at. by rewrite dict_get_set_ne. Qed.

Lemma keys_set (k : string) (v : cell) (d : Row) (c : string) :
  c ∈ keys (dict_set k v d) ↔ c = k ∨ c ∈ keys d.
Proof.
  unfold keys. induction d as [|[k' v'] d IH]; simpl.
  - rewrite list_elem_of_singleton, elem_of_nil. naive_solver.
  - destruct (String.eqb_spec k k') as [->|Hk]; simpl.
    + rewrite !elem_of_cons. naive_solver.
    + rewrite !elem_of_cons, IH. naive_solver.
Qed.

Lemma dict_get_None (k : string) (d : Row) : dict_get k d = None ↔ k ∉ keys d.
Proof.
  unfold keys. induction d as [|[k' v'] d IH]; simpl.
  - split; [intros _; apply not_elem_of_nil | done].
  - rewrite not_elem_of_cons. destruct (String.eqb_spec k k'); naive_solver.
Qed.

(** The last assignment to a key wins; a key never assigned keeps what the
    dict had. *)
Lemma dict_get_assign (k : string) (d : Row) (kvs : list (string * cell)) :
  dict_get k (assign d kvs)
  = match dict_get k (rev kvs) with
    | Some v => Some v
    | None => dict_get k d
    end.
Proof.
  unfold assign. revert d. induction kvs as [|[k0 v0] kvs IH]; intros d; simpl.
  - done.
  - rewrite IH.
    assert (Happ : ∀ l1 l2 : Row,
      dict_get k (l1 ++ l2)
      = match dict_get k l1 with Some v => Some v | None => dict_get k l2 end).
    { induction l1 as [|[k1 v1] l1 IHl]; intros l2; simpl; [done |].
      by destruct (String.eqb k k1). }
    rewrite Happ. destruct (dict_get k (rev kvs)); [done |]. simpl.
    destruct (String.eqb_spec k k0) as [->|Hne].
    + by rewrite dict_get_set_eq.
    + by rewrite dict_get_set_ne.
Qed.

Lemma keys_assign (d : Row) (kvs : list (string * cell)) (c : string) :
  c ∈ keys (assign d kvs) ↔ c ∈ keys d ∨ c ∈ kvs.*1.
Proof.
  unfold assign. revert d. induction kvs as [|[k0 v0] kvs IH]; intros d; simpl.
  - rewrite elem_of_nil. naive_solver.
  - rewrite IH, keys_set, elem_of_cons. naive_solver.
Qed.

Lemma keys_mk_base_row (cols : list string) (c : string) :
  c ∈ keys (mk_base_row cols) ↔ c ∈ cols.
Proof.
  unfold mk_base_row. rewrite keys_assign.
  rewrite <- list_fmap_compose. simpl.
  assert (E : (fst ∘ (λ c0 : string, (c0, NA))) <$> cols = cols).
  { induction cols; simpl; [done | by f_equal]. }
  rewrite E. unfold keys. simpl. rewrite elem_of_nil. naive_solver.
Qed.

Lemma dict_get_base (l : list string) (c : string) :
  dict_get c (map (λ c0 : string, (c0, NA)) l)
  = if bool_decide (c ∈ l) then Some NA else None.
Proof.
  induction l as [|c0 l IH]; [done |].
  change (dict_get c (map (λ c1 : string, (c1, NA)) (c0 :: l)))
    with (if String.eqb c c0 then Some NA
          else dict_get c (map (λ c1 : string, (c1, NA)) l)).
  destruct (String.eqb_spec c c0) as [->|Hne].
  - rewrite bool_decide_eq_true_2; [done | by left].
  - rewrite IH. do 2 case_bool_decide; try done.
    + exfalso. rewrite elem_of_cons in *. naive_solver.
    + exfalso. rewrite elem_of_cons in *. naive_solver.
Qed.

Lemma dict_get_mk_base_row (cols : list string) (c : string) :
  dict_get c (mk_base_row cols) = if bool_decide (c ∈ cols) then Some NA else None.
Proof.
  unfold mk_base_row. rewrite dict_get_assign.
  rewrite <- List.map_rev, dict_get_base.
  assert (E : bool_decide (c ∈ rev cols) = bool_decide (c ∈ cols)).
  { apply bool_decide_ext. rewrite !list_elem_of_In. symmetry. apply in_rev. }
  rewrite E. by destruct (bool_decide (c ∈ cols)).
Qed.

Lemma cell_at_mk_base_row (cols : list string) (c : string) :
  cell_at c (mk_base_row cols) = NA.
Proof.
  unfold cell_at. rewrite dict_get_mk_base_row. by case_bool_decide.
Qed.

(** Reading a cell after a run of assignments on a base row. *)
Lemma cell_at_assign_base (cols : list string) (kvs : list (string * cell)) (c : string) :
  cell_at c (assign (mk_base_row cols) kvs) = default NA (dict_get c (rev kvs)).
Proof.
  unfold cell_at at 1. rewrite dict_get_assign.
  destruct (dict_get c (rev kvs)); [done |].
  apply cell_at_mk_base_row.
Qed.

End Dict.

(* ===================================================================== *)
(** * The field corrector                                                  *)
(* ===================================================================== *)

Section FieldCorrector.

Lemma fix_row_other (c : string) (r : Row) :
  c ≠ "collected_by" → c ≠ "collection_date" →
  cell_at c (fix_row r) = cell_at c r.
Proof.
  intros H1 H2. unfold fix_row. destruct (fix_mask r); [| done].
  by rewrite !cell_at_set_ne.
Qed.

Lemma fix_row_fires (r : Row) :
  fix_mask r = true →
  cell_at "collection_date" (fix_row r) = cell_at "collected_by" r
  ∧ cell_at "collected_by" (fix_row r) = Str "Example_Trainee".
Proof.
  intros H. unfold fix_row. rewrite H. split.
  - by rewrite cell_at_set_ne, cell_at_set_eq.
  - by rewrite cell_at_set_eq.
Qed.

Lemma fix_row_idle (r : Row) : fix_mask r = false → fix_row r = r.
Proof. intros H. unfold fix_row. by rewrite H. Qed.

Lemma fix_mask_true (r : Row) :
  fix_mask r = true ↔
  Py.match_date (py_str (cell_at "collected_by" r)) = true
  ∧ cell_at "collection_date" r = NA.
Proof.
  unfold fix_mask. rewrite andb_true_iff.
  by destruct (cell_at "collection_date" r); naive_solver.
Qed.

Lemma fix_row_changes (r : Row) : fix_mask r = true → fix_row r ≠ r.
Proof.
  intros H E. destruct (fix_row_fires r H) as [Hd _]. rewrite E in Hd.
  apply fix_mask_true in H as [Hm Hna]. rewrite Hna in Hd.
  rewrite <- Hd in Hm. by vm_compute in Hm.
Qed.

(** The corrected row never matches again. *)
Lemma fix_mask_fix_row (r : Row) : fix_mask (fix_row r) = false.
Proof.
  destruct (fix_mask r) eqn:H.
  - destruct (fix_row_fires r H) as [_ Hc]. unfold fix_mask. by rewrite Hc.
  - by rewrite fix_row_idle.
Qed.

Lemma fix_rows_lookup (df : DataFrame) (i : nat) (r : Row) :
  has_col df "collected_by" = true → has_col df "collection_date" = true →
  rows df !! i = Some r →
  rows (fix_collector_fields df) !! i = Some (fix_row r).
Proof.
  intros H1 H2 Hr. unfold fix_collector_fields. rewrite H1, H2. simpl.
  change (map fix_row (rows df)) with (fix_row <$> rows df).
  by rewrite list_lookup_fmap, Hr.
Qed.

Lemma fix_collector_fields_columns (df : DataFrame) :
  columns (fix_collector_fields df) = columns df.
Proof. unfold fix_collector_fields. by destruct (_ || _). Qed.

Lemma fix_collector_fields_rows (df : DataFrame) :
  rows (fix_collector_fields df) = rows df
  ∨ rows (fix_collector_fields df) = fix_row <$> rows df.
Proof. unfold fix_collector_fields. destruct (_ || _); [by left | by right]. Qed.

Lemma fix_collector_fields_length (df : DataFrame) :
  length (rows (fix_collector_fields df)) = length (rows df).
Proof.
  destruct (fix_collector_fields_rows df) as [-> | ->]; [done |].
  by rewrite length_fmap.
Qed.

End FieldCorrector.

(** C3.  On a table that has both columns, the corrector alters a row if
    and only if the text of its [collected_by] matches
    [^\d{4}-\d{2}-\d{2}$] and its [collection_date] is null; it then copies
    the date-like value into [collection_date] and sets [collected_by] to
    ["Example_Trainee"]; a row whose [collection_date] is not null is left
    as it is. *)
Theorem fix_collector_fields_fires_iff (df : DataFrame) (i : nat) (r : Row) :
  has_col df "collected_by" = true →
  has_col df "collection_date" = true →
  rows df !! i = Some r →
  ∃ r' : Row,
    rows (fix_collector_fields df) !! i = Some r'
    ∧ (r' ≠ r ↔
       Py.match_date (py_str (cell_at "collected_by" r)) = true
       ∧ cell_at "collection_date" r = NA)
    ∧ (Py.match_date (py_str (cell_at "collected_by" r)) = true →
       cell_at "collection_date" r = NA →
       cell_at "collection_date" r' = cell_at "collected_by" r
       ∧ cell_at "collected_by" r' = Str "Example_Trainee")
    ∧ (cell_at "collection_date" r ≠ NA → r' = r).
Proof.
  intros H1 H2 Hr. exists (fix_row r). split_and!.
  - by apply fix_rows_lookup.
  - rewrite <- fix_mask_true. destruct (fix_mask r) eqn:Hm.
    + split; [done |]. intros _. by apply fix_row_changes.
    + rewrite fix_row_idle by done. split; [done | congruence].
  - intros Hm Hna. apply fix_row_fires, fix_mask_true. done.
  - intros Hna. apply fix_row_idle.
    destruct (fix_mask r) eqn:Hm; [| done].
    apply fix_mask_true in Hm as [_ Hm]. done.
Qed.

(** C3 at the sample table: the only row has a date under [collected_by]
    and nothing under [collection_date]. *)
Lemma fix_collector_fields_fires_iff_witness :
  has_col table_swap "collected_by" = true
  ∧ has_col table_swap "collection_date" = true
  ∧ rows table_swap !! 0%nat = Some row_swap
  ∧ ∃ r' : Row,
      rows (fix_collector_fields table_swap) !! 0%nat = Some r'
      ∧ (r' ≠ row_swap ↔
         Py.match_date (py_str (cell_at "collected_by" row_swap)) = true
         ∧ cell_at "collection_date" row_swap = NA)
      ∧ (Py.match_date (py_str (cell_at "collected_by" row_swap)) = true →
         cell_at "collection_date" row_swap = NA →
         cell_at "collection_date" r' = cell_at "collected_by" row_swap
         ∧ cell_at "collected_by" r' = Str "Example_Trainee")
      ∧ (cell_at "collection_date" row_swap ≠ NA → r' = row_swap).
Proof.
  split; [reflexivity |]. split; [reflexivity |]. split; [reflexivity |].
  apply (fix_collector_fields_fires_iff table_swap 0 row_swap); reflexivity.
Defined.

(** C9.  The correction pass keeps the column labels and the number of
    rows; in every row it leaves every cell outside [collected_by] and
    [collection_date] as it was, and a row that fails either trigger
    condition is not touched at all. *)
Theorem fix_collector_fields_frame (df : DataFrame) :
  columns (fix_collector_fields df) = columns df
  ∧ length (rows (fix_collector_fields df)) = length (rows df)
  ∧ ∀ (i : nat) (r : Row),
      rows df !! i = Some r →
      ∃ r' : Row,
        rows (fix_collector_fields df) !! i = Some r'
        ∧ (∀ c : string,
             c ≠ "collected_by" → c ≠ "collection_date" →
             cell_at c r' = cell_at c r)
        ∧ (Py.match_date (py_str (cell_at "collected_by" r)) = false
           ∨ cell_at "collection_date" r ≠ NA →
           r' = r).
Proof.
  split_and!.
  - apply fix_collector_fields_columns.
  - apply fix_collector_fields_length.
  - intros i r Hr.
    destruct (fix_collector_fields_rows df) as [E|E]; rewrite E.
    + exists r. by split_and!.
    + exists (fix_row r). split_and!.
      * by rewrite list_lookup_fmap, Hr.
      * intros c. apply fix_row_other.
      * intros Hno. apply fix_row_idle.
        destruct (fix_mask r) eqn:Hm; [| done].
        apply fix_mask_true in Hm as [Hm Hna].
        destruct Hno as [Hno|Hno]; congruence.
Qed.

Example fix_fires :
  fix_row [("record_id", Str "REC_0001"); ("collected_by", Str "2025-01-20");
           ("collection_date", NA)]
  = [("record_id", Str "REC_0001"); ("collected_by", Str "Example_Trainee");
     ("collection_date", Str "2025-01-20")].
Proof. reflexivity. Qed.

Example fix_keeps_dated :
  fix_row [("record_id", Str "REC_0001"); ("collected_by", Str "2025-01-20");
           ("collection_date", Str "2025-02-01")]
  = [("record_id", Str "REC_0001"); ("collected_by", Str "2025-01-20");
     ("collection_date", Str "2025-02-01")].
Proof. reflexivity. Qed.

(* ===================================================================== *)
(** * Appending rows                                                       *)
(* ===================================================================== *)

Section Append.

Lemma grows_trans (step : DataFrame → Row → Prop) (a b c : DataFrame) :
  grows step a b → grows step b c → grows step a c.
Proof.
  intros Hab Hbc. induction Hbc as [|c row Hbc IH Hs]; [done |].
  by apply grows_step.
Qed.

Lemma grows_mono (s1 s2 : DataFrame → Row → Prop) (a b : DataFrame) :
  (∀ df row, s1 df row → s2 df row) → grows s1 a b → grows s2 a b.
Proof.
  intros Hs Hab. induction Hab as [|b row Hab IH Hr]; [apply grows_refl |].
  apply grows_step; [done | by apply Hs].
Qed.

Lemma grows_rows (step : DataFrame → Row → Prop) (a b : DataFrame) :
  grows step a b → ∃ new : list Row, rows b = rows a ++ new.
Proof.
  intros Hab. induction Hab as [|b row Hab [new IH] Hr].
  - exists []. by rewrite app_nil_r.
  - exists (new ++ [row]). simpl. by rewrite IH, app_assoc.
Qed.

Lemma grows_columns (step : DataFrame → Row → Prop) (a b : DataFrame) (c : string) :
  grows step a b → c ∈ columns a → c ∈ columns b.
Proof.
  intros Hab Hc. induction Hab as [|b row Hab IH Hr]; [done |].
  simpl. apply elem_of_app. by left.
Qed.

Lemma getcol_ok (df : DataFrame) (c : string) :
  c ∈ columns df → getcol df c = Ok (map (cell_at c) (rows df)).
Proof.
  intros H. unfold getcol, has_col. by rewrite bool_decide_eq_true_2.
Qed.

Lemma has_col_true (df : DataFrame) (c : string) :
  has_col df c = true ↔ c ∈ columns df.
Proof. unfold has_col. apply bool_decide_eq_true. Qed.

Lemma add_event_ok (df : DataFrame) (cols : list string) (a : event_args) (y : Z) :
  ID_COL ∈ columns df →
  to_datetime_year (event_date a) = Ok y →
  add_event df cols a
  = Ok (concat_row df (event_row cols a (next_id (ids df) "EVT") y),
        event_row cols a (next_id (ids df) "EVT") y).
Proof.
  intros Hid Hy. unfold add_event. rewrite getcol_ok by done. simpl.
  by rewrite Hy.
Qed.

Lemma add_impact_link_ok (df : DataFrame) (cols : list string) (a : link_args) :
  ID_COL ∈ columns df →
  add_impact_link df cols a
  = Ok (concat_row df (link_row cols a (next_id (ids df) "LNK")),
        link_row cols a (next_id (ids df) "LNK")).
Proof.
  intros Hid. unfold add_impact_link. by rewrite getcol_ok.
Qed.

(** Cells of the rows the two builders make. *)
Lemma event_row_cell (cols : list string) (a : event_args) (id : string) (y : Z)
    (c : string) :
  cell_at c (event_row cols a id y)
  = default NA (dict_get c (rev
      [ (ID_COL, Str id); ("record_type", Str "event");
        ("category", Str (category a)); ("pillar", NA);
        ("indicator", Str (indicator a));
        ("indicator_code", Str (indicator_code a));
        ("value_text", Str "Occurred"); ("value_type", Str "categorical");
        (DATE_COL, Str (event_date a)); ("fiscal_year", Str (Py.str_int y));
        ("gender", Str "all"); ("location", Str "national"); ("region", NA);
        ("source_name", Str (source_name a)); ("source_type", Str (source_type a));
        ("source_url", Str (source_url a)); ("confidence", Str (confidence a));
        ("collected_by", Str COLLECTED_BY);
        ("collection_date", Str COLLECTION_DATE);
        ("original_text", Str (original_text a)); ("notes", Str (notes a)) ])).
Proof. apply cell_at_assign_base. Qed.

Lemma event_row_id cols a id y : cell_at ID_COL (event_row cols a id y) = Str id.
Proof. by rewrite event_row_cell. Qed.

Lemma event_row_type cols a id y :
  cell_at "record_type" (event_row cols a id y) = Str "event".
Proof. by rewrite event_row_cell. Qed.

Lemma event_row_code cols a id y :
  cell_at "indicator_code" (event_row cols a id y) = Str (indicator_code a).
Proof. by rewrite event_row_cell. Qed.

Lemma event_row_collected_by cols a id y :
  cell_at "collected_by" (event_row cols a id y) = Str COLLECTED_BY.
Proof. by rewrite event_row_cell. Qed.

Lemma event_row_keys cols a id y (c : string) :
  c ∈ keys (event_row cols a id y) ↔ c ∈ cols ∨ c ∈ event_fields.
Proof. unfold event_row. by rewrite keys_assign, keys_mk_base_row. Qed.

Lemma event_row_null cols a id y (c : string) :
  c ∉ event_fields → cell_at c (event_row cols a id y) = NA.
Proof.
  intros Hc. unfold event_row, cell_at. rewrite dict_get_assign.
  match goal with |- context [dict_get c (rev ?l)] =>
    assert (H : dict_get c (rev l) = None) end.
  { apply dict_get_None. unfold keys. rewrite List.map_rev.
    intros Hin. apply Hc. apply list_elem_of_In, in_rev, list_elem_of_In. exact Hin. }
  rewrite H. apply cell_at_mk_base_row.
Qed.

Lemma link_row_cell (cols : list string) (a : link_args) (id : string) (c : string) :
  cell_at c (link_row cols a id)
  = default NA (dict_get c (rev
      [ (ID_COL, Str id); ("record_type", Str "impact_link");
        ("parent_id", parent_id a); ("pillar", Str (pillar a));
        ("related_indicator", Str (related_indicator a));
        ("relationship_type", Str (relationship_type a));
        ("impact_direction", Str (impact_direction a));
        ("impact_magnitude", Float (impact_magnitude a));
        ("lag_months", Int (lag_months a));
        ("evidence_basis", Str (evidence_basis a));
        ("comparable_country", Str (comparable_country a));
        ("confidence", Str (link_confidence a));
        ("collected_by", Str COLLECTED_BY);
        ("collection_date", Str COLLECTION_DATE);
        ("notes", Str (if String.eqb (link_notes a) ""
                       then "Impact link added for event-augmented modeling; calibrate in Task 3."
                       else link_notes a)) ])).
Proof. apply cell_at_assign_base. Qed.

Lemma link_row_id cols a id : cell_at ID_COL (link_row cols a id) = Str id.
Proof. by rewrite link_row_cell. Qed.

Lemma link_row_type cols a id :
  cell_at "record_type" (link_row cols a id) = Str "impact_link".
Proof. by rewrite link_row_cell. Qed.

Lemma link_row_parent cols a id :
  cell_at "parent_id" (link_row cols a id) = parent_id a.
Proof. by rewrite link_row_cell. Qed.

Lemma link_row_related cols a id :
  cell_at "related_indicator" (link_row cols a id) = Str (related_indicator a).
Proof. by rewrite link_row_cell. Qed.

Lemma link_row_collected_by cols a id :
  cell_at "collected_by" (link_row cols a id) = Str COLLECTED_BY.
Proof. by rewrite link_row_cell. Qed.

Lemma link_row_keys cols a id (c : string) :
  c ∈ keys (link_row cols a id) ↔ c ∈ cols ∨ c ∈ link_fields.
Proof. unfold link_row. by rewrite keys_assign, keys_mk_base_row. Qed.

Lemma link_row_null cols a id (c : string) :
  c ∉ link_fields → cell_at c (link_row cols a id) = NA.
Proof.
  intros Hc. unfold link_row, cell_at. rewrite dict_get_assign.
  match goal with |- context [dict_get c (rev ?l)] =>
    assert (H : dict_get c (rev l) = None) end.
  { apply dict_get_None. unfold keys. rewrite List.map_rev.
    intros Hin. apply Hc. apply list_elem_of_In, in_rev, list_elem_of_In. exact Hin. }
  rewrite H. apply cell_at_mk_base_row.
Qed.

End Append.

(* ===================================================================== *)
(** * The event lookup and the de-duplication set                          *)
(* ===================================================================== *)

Section Lookup.

Lemma event_lookup_ok (df : DataFrame) :
  "record_type" ∈ columns df → ID_COL ∈ columns df → "indicator_code" ∈ columns df →
  event_lookup df = Ok (lookup_of (rows df)).
Proof.
  intros H1 H2 H3. unfold event_lookup. by rewrite !getcol_ok.
Qed.

Lemma existing_link_keys_ok (df : DataFrame) :
  "record_type" ∈ columns df → existing_link_keys df = Ok (link_keys_of df).
Proof. intros H. unfold existing_link_keys. by rewrite getcol_ok. Qed.

Lemma filter_kind_cons (k : string) (r : Row) (l : list Row) :
  filter (fun r => is_kind k r) (r :: l)
  = if is_kind k r
    then r :: filter (fun r => is_kind k r) l
    else filter (fun r => is_kind k r) l.
Proof.
  rewrite filter_cons. destruct (decide _) as [H|H]; simpl in H;
    destruct (is_kind k r); simpl in *; done.
Qed.

Lemma lookup_of_snoc (rs : list Row) (r : Row) :
  lookup_of (rs ++ [r])
  = if is_kind "event" r then lookup_step (lookup_of rs) r else lookup_of rs.
Proof.
  unfold lookup_of. rewrite filter_app, fold_left_app.
  rewrite filter_kind_cons, filter_nil.
  by destruct (is_kind "event" r).
Qed.

Lemma lookup_of_snoc_event (rs : list Row) cols a id y :
  lookup_of (rs ++ [event_row cols a id y])
  = <[indicator_code a := Str id]> (lookup_of rs).
Proof.
  rewrite lookup_of_snoc. unfold is_kind, lookup_step.
  by rewrite event_row_type, event_row_code, event_row_id.
Qed.

Lemma lookup_of_snoc_link (rs : list Row) cols a id :
  lookup_of (rs ++ [link_row cols a id]) = lookup_of rs.
Proof.
  rewrite lookup_of_snoc. unfold is_kind. by rewrite link_row_type.
Qed.

(** The lookup reads three cells of each row and nothing else. *)
Lemma lookup_of_ext (f : Row → Row) (rs : list Row) :
  (∀ r, cell_at "record_type" (f r) = cell_at "record_type" r
        ∧ cell_at "indicator_code" (f r) = cell_at "indicator_code" r
        ∧ cell_at ID_COL (f r) = cell_at ID_COL r) →
  lookup_of (f <$> rs) = lookup_of rs.
Proof.
  intros Hf. unfold lookup_of. generalize (∅ : gmap string cell).
  induction rs as [|r rs IH]; intros m; [done |].
  rewrite fmap_cons, !filter_kind_cons.
  destruct (Hf r) as (Ht & Hc & Hi).
  assert (Hk : is_kind "event" (f r) = is_kind "event" r)
    by (unfold is_kind; by rewrite Ht).
  rewrite Hk. destruct (is_kind "event" r) eqn:E.
  - simpl.
    assert (Hs : lookup_step m (f r) = lookup_step m r)
      by (unfold lookup_step; by rewrite Hc, Hi).
    by rewrite Hs, IH.
  - apply IH.
Qed.

Lemma lookup_of_fix (rs : list Row) : lookup_of (fix_row <$> rs) = lookup_of rs.
Proof. apply lookup_of_ext. intros r. by rewrite !fix_row_other. Qed.

Lemma link_keys_of_elem (df : DataFrame) (key : string * string) :
  key ∈ link_keys_of df ↔ covered df key.
Proof.
  unfold link_keys_of, covered, getcol_or_empty.
  rewrite elem_of_list_to_set.
  destruct (has_col df "parent_id") eqn:Hp.
  2:{ split; [by intros ?%elem_of_nil |].
      intros (H & _). apply has_col_true in H. congruence. }
  destruct (has_col df "related_indicator") eqn:Hr.
  2:{ assert (Z : ∀ l : list string, zip l (py_str <$> []) = [])
        by (by destruct l).
      rewrite Z. split; [by intros ?%elem_of_nil |].
      intros (_ & H & _). apply has_col_true in H. congruence. }
  apply has_col_true in Hp, Hr.
  set (links := filter (λ r : Row, is_kind "impact_link" r) (rows df)).
  assert (E : zip (py_str <$> map (cell_at "parent_id") links)
                  (py_str <$> map (cell_at "related_indicator") links)
              = link_key <$> links).
  { generalize links. intros l. induction l as [|r l IH]; [done |].
    simpl. f_equal. exact IH. }
  rewrite E, list_elem_of_fmap. split.
  - intros (r & -> & Hin). split_and!; [done | done |].
    exists r. apply list_elem_of_filter in Hin as [Hk Hin].
    split_and!; [done | | done]. by destruct (is_kind "impact_link" r).
  - intros (_ & _ & r & Hin & Hk & <-). exists r. split; [done |].
    apply list_elem_of_filter. split; [by rewrite Hk | done].
Qed.

Lemma covered_concat (df : DataFrame) (row : Row) (key : string * string) :
  covered df key → covered (concat_row df row) key.
Proof.
  intros (Hp & Hr & r & Hin & Hk & Hkey). unfold covered. simpl.
  rewrite !elem_of_app. split_and!; [by left | by left |].
  exists r. rewrite elem_of_app. by split_and!; [left | |].
Qed.

Lemma covered_grows (step : DataFrame → Row → Prop) (a b : DataFrame) key :
  grows step a b → covered a key → covered b key.
Proof.
  intros Hab Hc. induction Hab as [|b row Hab IH Hs]; [done |].
  by apply covered_concat.
Qed.

Lemma covered_new_link (df : DataFrame) cols a id :
  covered (concat_row df (link_row cols a id))
          (py_str (parent_id a), related_indicator a).
Proof.
  assert (Hkeys : ∀ c, c ∈ link_fields →
            c ∈ columns (concat_row df (link_row cols a id))).
  { intros c Hc. simpl. apply elem_of_app.
    destruct (decide (c ∈ columns df)) as [Hin|Hout]; [by left | right].
    apply list_elem_of_filter. split; [done |].
    apply link_row_keys. by right. }
  split_and!.
  - apply Hkeys. unfold link_fields. rewrite !elem_of_cons. naive_solver.
  - apply Hkeys. unfold link_fields. rewrite !elem_of_cons. naive_solver.
  - exists (link_row cols a id). split_and!.
    + simpl. apply elem_of_app. right. by apply list_elem_of_singleton.
    + unfold is_kind. by rewrite link_row_type.
    + unfold link_key. by rewrite link_row_parent, link_row_related.
Qed.

Lemma covered_fix (df : DataFrame) (key : string * string) :
  covered df key → covered (fix_collector_fields df) key.
Proof.
  intros (Hp & Hr & r & Hin & Hk & Hkey). unfold covered.
  rewrite fix_collector_fields_columns. split_and!; [done | done |].
  destruct (fix_collector_fields_rows df) as [E|E]; rewrite E.
  - by exists r.
  - exists (fix_row r). split_and!.
    + apply list_elem_of_fmap. by exists r.
    + unfold is_kind in *. by rewrite fix_row_other.
    + unfold link_key in *. by rewrite !fix_row_other.
Qed.

End Lookup.

(* ===================================================================== *)
(** * The two phases of the transform                                      *)
(* ===================================================================== *)

Section Phases.

Lemma bind_Ok {A B : Type} (a : A) (f : A → result B) : (Ok a ≫= f) = f a.
Proof. reflexivity. Qed.

Lemma filter_passes_cons (lk : gmap string cell) (ks : gset (string * string))
    (c : link_call) (l : list link_call) :
  filter (fun c => passes lk ks c) (c :: l)
  = if passes lk ks c
    then c :: filter (fun c => passes lk ks c) l
    else filter (fun c => passes lk ks c) l.
Proof.
  rewrite filter_cons. destruct (decide _) as [H|H]; simpl in H;
    destruct (passes lk ks c); simpl in *; done.
Qed.

Lemma has_required_cols (df : DataFrame) :
  has_required df →
  ID_COL ∈ columns df ∧ "record_type" ∈ columns df
  ∧ "indicator_code" ∈ columns df ∧ DATE_COL ∈ columns df.
Proof.
  intros H. split_and!; apply H; unfold required_columns;
    rewrite !elem_of_cons; naive_solver.
Qed.

Lemma add_event_if_absent_spec (cols : list string) (a : event_args) (y : Z)
    (df : DataFrame) :
  ID_COL ∈ columns df →
  to_datetime_year (event_date a) = Ok y →
  ∃ df' : DataFrame,
    add_event_if_absent cols a (df, lookup_of (rows df))
    = Ok (df', lookup_of (rows df'))
    ∧ grows (event_step cols) df df'
    ∧ is_Some (lookup_of (rows df') !! indicator_code a)
    ∧ (is_Some (lookup_of (rows df) !! indicator_code a) → df' = df).
Proof.
  intros Hid Hy. unfold add_event_if_absent.
  destruct (lookup_of (rows df) !! indicator_code a) as [v|] eqn:E.
  - exists df. split_and!; [done | apply grows_refl | by rewrite E | done].
  - rewrite (add_event_ok _ _ _ y) by done. simpl.
    eexists. split_and!.
    + rewrite event_row_id. f_equal. f_equal. simpl.
      by rewrite lookup_of_snoc_event.
    + apply grows_step; [apply grows_refl |]. by exists a, y.
    + simpl. rewrite lookup_of_snoc_event, lookup_insert_eq. by eexists.
    + by intros [? ?].
Qed.

Lemma lookup_of_grows_event (cols : list string) (a b : DataFrame) (c : string) :
  grows (event_step cols) a b →
  is_Some (lookup_of (rows a) !! c) → is_Some (lookup_of (rows b) !! c).
Proof.
  intros Hab Hc. induction Hab as [|b row Hab IH (e & y & ->)]; [done |].
  simpl. rewrite lookup_of_snoc_event.
  destruct (decide (indicator_code e = c)) as [->|Hne].
  - rewrite lookup_insert_eq. by eexists.
  - by rewrite lookup_insert_ne.
Qed.

Lemma lookup_of_grows_link (cols : list string) (a b : DataFrame) :
  grows (link_step cols) a b → lookup_of (rows b) = lookup_of (rows a).
Proof.
  intros Hab. induction Hab as [|b row Hab IH (l & ->)]; [done |].
  simpl. by rewrite lookup_of_snoc_link.
Qed.

Lemma lookup_of_fix_frame (df : DataFrame) :
  lookup_of (rows (fix_collector_fields df)) = lookup_of (rows df).
Proof.
  destruct (fix_collector_fields_rows df) as [-> | ->]; [done |].
  apply lookup_of_fix.
Qed.

Lemma event_phase_spec (cols : list string) (df : DataFrame) :
  has_required df →
  ∃ d2 : DataFrame,
    event_phase cols df = Ok d2
    ∧ grows (event_step cols) (fix_collector_fields df) d2
    ∧ is_Some (lookup_of (rows d2) !! "EVT_INTEROP_CROSSOVER")
    ∧ is_Some (lookup_of (rows d2) !! "EVT_FAYDA_ROLLOUT")
    ∧ (is_Some (lookup_of (rows df) !! "EVT_INTEROP_CROSSOVER") →
       is_Some (lookup_of (rows df) !! "EVT_FAYDA_ROLLOUT") →
       d2 = fix_collector_fields df).
Proof.
  intros (Hid & Hrt & Hic & _)%has_required_cols.
  unfold event_phase.
  set (d0 := fix_collector_fields df).
  assert (Hc0 : ∀ c, c ∈ columns df → c ∈ columns d0)
    by (intros c; unfold d0; by rewrite fix_collector_fields_columns).
  rewrite event_lookup_ok by (by apply Hc0). rewrite bind_Ok.
  destruct (add_event_if_absent_spec cols interop_crossover 2024 d0)
    as (d1 & E1 & G1 & S1 & K1); [by apply Hc0 | done |].
  rewrite E1, bind_Ok.
  destruct (add_event_if_absent_spec cols fayda_rollout 2023 d1)
    as (d2 & E2 & G2 & S2 & K2);
    [by apply (grows_columns _ _ _ _ G1), Hc0 | done |].
  rewrite E2, bind_Ok. exists d2. split_and!.
  - done.
  - by apply (grows_trans _ _ d1).
  - by apply (lookup_of_grows_event cols d1).
  - done.
  - intros Hi Hf. unfold d0 in K1. rewrite lookup_of_fix_frame in K1.
    specialize (K1 Hi). subst d1.
    unfold d0 in K2. rewrite lookup_of_fix_frame in K2. by apply K2.
Qed.

Lemma maybe_add_link_spec (cols : list string) (lk : gmap string cell)
    (ks : gset (string * string)) (c : link_call) (df : DataFrame) :
  ID_COL ∈ columns df →
  ∃ df' : DataFrame,
    maybe_add_link cols lk ks c df = Ok df'
    ∧ (if passes lk ks c
       then ∃ pid, lk !! parent_event_code c = Some pid
            ∧ df' = concat_row df
                      (link_row cols (call_args c pid) (next_id (ids df) "LNK"))
       else df' = df).
Proof.
  intros Hid. unfold maybe_add_link, passes, call_key.
  destruct (lk !! parent_event_code c) as [pid|] eqn:E; simpl.
  - case_bool_decide as Hk.
    + exists df. split; [done |]. by rewrite bool_decide_eq_false_2 by naive_solver.
    + rewrite add_impact_link_ok by done. simpl. eexists. split; [done |].
      rewrite bool_decide_eq_true_2 by done. by exists pid.
  - by exists df.
Qed.

(** The whole run of calls: the frame only gains rows typed [impact_link],
    one for each call that passes, in order, with that call's key. *)
Lemma add_links_spec (cols : list string) (lk : gmap string cell)
    (ks : gset (string * string)) (calls : list link_call) (df : DataFrame) :
  ID_COL ∈ columns df →
  ∃ (df' : DataFrame) (new : list Row),
    add_links cols lk ks calls df = Ok df'
    ∧ grows (link_step cols) df df'
    ∧ rows df' = rows df ++ new
    ∧ Forall (fun r => is_kind "impact_link" r = true) new
    ∧ link_key <$> new = call_key lk <$> filter (fun c => passes lk ks c) calls
    ∧ (∀ c, c ∈ calls → passes lk ks c = true → covered df' (call_key lk c)).
Proof.
  revert df. induction calls as [|c calls IH]; intros df Hid.
  - exists df, []. simpl. rewrite app_nil_r.
    split_and!; try done; [apply grows_refl |]. by intros c ?%elem_of_nil.
  - simpl. destruct (maybe_add_link_spec cols lk ks c df Hid) as (d1 & E1 & H1).
    rewrite E1, bind_Ok, filter_passes_cons.
    destruct (passes lk ks c) eqn:Hp.
    + destruct H1 as (pid & Hpid & ->).
      set (row := link_row cols (call_args c pid) (next_id (ids df) "LNK")).
      destruct (IH (concat_row df row)) as (d2 & new & E2 & G2 & R2 & F2 & K2 & C2).
      { simpl. apply elem_of_app. by left. }
      exists d2, (row :: new). rewrite E2. split_and!.
      * done.
      * eapply grows_trans; [| exact G2].
        apply grows_step; [apply grows_refl |]. by eexists.
      * rewrite R2. simpl. by rewrite <- app_assoc.
      * constructor; [| done]. unfold is_kind, row. by rewrite link_row_type.
      * rewrite !fmap_cons. f_equal; [| done].
        unfold link_key, call_key, row.
        by rewrite link_row_parent, link_row_related, Hpid.
      * intros c' [->|Hin]%elem_of_cons Hp'; [| by apply C2].
        eapply covered_grows; [exact G2 |].
        unfold call_key. rewrite Hpid. apply (covered_new_link df cols (call_args c pid)).
    + subst d1.
      destruct (IH df Hid) as (d2 & new & E2 & G2 & R2 & F2 & K2 & C2).
      exists d2, new. rewrite E2. split_and!; try done.
      intros c' [->|Hin]%elem_of_cons Hp'; [congruence | by apply C2].
Qed.

(** When no call passes, the link phase leaves the frame as it is. *)
Lemma add_links_idle (cols : list string) (lk : gmap string cell)
    (ks : gset (string * string)) (calls : list link_call) (df : DataFrame) :
  (∀ c, c ∈ calls → passes lk ks c = false) →
  add_links cols lk ks calls df = Ok df.
Proof.
  induction calls as [|c calls IH]; intros Hn; [done |].
  simpl. assert (Hc : passes lk ks c = false) by (apply Hn; by left).
  unfold maybe_add_link. unfold passes, call_key in Hc.
  destruct (lk !! parent_event_code c) as [pid|] eqn:E; simpl in *.
  - apply bool_decide_eq_false in Hc.
    rewrite bool_decide_eq_true_2 by (by destruct (decide ((py_str pid, call_related_indicator c) ∈ ks))).
    simpl. apply IH. intros c' Hin. apply Hn. by right.
  - apply IH. intros c' Hin. apply Hn. by right.
Qed.

End Phases.

(* ===================================================================== *)
(** * The whole transform                                                  *)
(* ===================================================================== *)

Section Transform.

Lemma required_ok_true (df : DataFrame) : required_ok df = true ↔ has_required df.
Proof.
  unfold required_ok, has_required. rewrite forallb_forall. split.
  - intros H c Hc. apply has_col_true, H. by apply list_elem_of_In.
  - intros H c Hc. apply has_col_true, H. by apply list_elem_of_In.
Qed.

Lemma well_formed_true (df : DataFrame) :
  well_formed df = true →
  ∀ r : Row, r ∈ rows df → ∀ k : string, k ∈ keys r → k ∈ columns df.
Proof.
  unfold well_formed. rewrite forallb_forall. intros H r Hr k Hk.
  apply list_elem_of_In, H in Hr. rewrite forallb_forall in Hr.
  by apply has_col_true, Hr, list_elem_of_In.
Qed.

Lemma has_required_grows (step : DataFrame → Row → Prop) (a b : DataFrame) :
  grows step a b → has_required a → has_required b.
Proof. intros G H c Hc. eapply grows_columns; [exact G | by apply H]. Qed.

Lemma has_required_fix (df : DataFrame) :
  has_required df → has_required (fix_collector_fields df).
Proof. intros H c Hc. rewrite fix_collector_fields_columns. by apply H. Qed.

(** What one run does, phase by phase. *)
Lemma enrich_spec (df : DataFrame) :
  has_required df →
  ∃ (d2 out : DataFrame) (new : list Row),
    event_phase (columns df) df = Ok d2
    ∧ enrich df = Ok out
    ∧ grows (event_step (columns df)) (fix_collector_fields df) d2
    ∧ grows (link_step (columns df)) d2 out
    ∧ is_Some (lookup_of (rows d2) !! "EVT_INTEROP_CROSSOVER")
    ∧ is_Some (lookup_of (rows d2) !! "EVT_FAYDA_ROLLOUT")
    ∧ rows out = rows d2 ++ new
    ∧ Forall (fun r => is_kind "impact_link" r = true) new
    ∧ link_key <$> new
      = call_key (lookup_of (rows d2))
        <$> filter (fun c => passes (lookup_of (rows d2)) (link_keys_of d2) c) link_calls
    ∧ (∀ c, c ∈ link_calls →
         passes (lookup_of (rows d2)) (link_keys_of d2) c = true →
         covered out (call_key (lookup_of (rows d2)) c)).
Proof.
  intros Hreq.
  destruct (event_phase_spec (columns df) df Hreq) as (d2 & E & G & Hi & Hf & _).
  assert (Hreq2 : has_required d2)
    by (eapply has_required_grows; [exact G | by apply has_required_fix]).
  destruct (has_required_cols _ Hreq2) as (Hid & Hrt & Hic & _).
  destruct (add_links_spec (columns df) (lookup_of (rows d2)) (link_keys_of d2)
              link_calls d2 Hid) as (out & new & EL & GL & R & F & K & C).
  exists d2, out, new. split_and!; try done.
  unfold enrich. rewrite E, bind_Ok. unfold link_phase.
  rewrite event_lookup_ok, bind_Ok by done.
  by rewrite existing_link_keys_ok, bind_Ok.
Qed.

Lemma enrich_grows (df out : DataFrame) :
  has_required df → enrich df = Ok out →
  grows (append_step (columns df)) (fix_collector_fields df) out.
Proof.
  intros Hreq E.
  destruct (enrich_spec df Hreq) as (d2 & out' & new & _ & E' & G1 & G2 & _).
  rewrite E in E'. injection E' as <-.
  eapply grows_trans.
  - eapply grows_mono; [| exact G1]. intros ? ? ?. by left.
  - eapply grows_mono; [| exact G2]. intros ? ? ?. by right.
Qed.

(** An identifier [next_id] returns is the cell of no row it was derived
    from. *)
Lemma next_id_fresh_cell (l : list cell) (P : string) : Str (next_id l P) ∉ l.
Proof.
  intros Hin. apply (next_id_not_in l P). unfold id_strings.
  apply list_elem_of_fmap. exists (Str (next_id l P)). split; [done |].
  apply list_elem_of_filter. by split.
Qed.



Lemma append_step_mask (cols : list string) (df : DataFrame) (row : Row) :
  append_step cols df row → fix_mask row = false.
Proof.
  unfold fix_mask. intros [(a & y & ->) | (a & ->)].
  - by rewrite event_row_collected_by.
  - by rewrite link_row_collected_by.
Qed.

Lemma grows_mask (cols : list string) (a b : DataFrame) :
  grows (append_step cols) a b →
  Forall (fun r => fix_mask r = false) (rows a) →
  Forall (fun r => fix_mask r = false) (rows b).
Proof.
  intros G Ha. induction G as [|b row G IH Hs]; [done |].
  simpl. apply Forall_app. split; [done |].
  constructor; [| constructor]. by eapply append_step_mask.
Qed.



End Transform.

(* ===================================================================== *)
(** * What a run does to a table                                           *)
(* ===================================================================== *)

(** ** Identifiers of appended rows *)

Section Identifiers.

Lemma ids_fix (df : DataFrame) : ids (fix_collector_fields df) = ids df.
Proof.
  unfold ids. destruct (fix_collector_fields_rows df) as [-> | ->]; [done |].
  change (map (cell_at ID_COL) (fix_row <$> rows df))
    with (cell_at ID_COL <$> (fix_row <$> rows df)).
  rewrite <- list_fmap_compose. apply list_fmap_ext.
  intros i r _. simpl. by rewrite fix_row_other.
Qed.

End Identifiers.



(** ** Shape of the output *)




(** Scenario A: no event in the input.  The two catalogue events are
    appended, and the links whose parent is now known; the Telebirr and
    Safaricom links are not. *)
Example scenario_A :
  ∃ out : DataFrame,
    enrich table_min = Ok out
    ∧ digest <$> rows out
      = [ [Str "REC_0001"; Str "observation"; Str "ACC_OWNERSHIP"; NA; NA; NA];
          [Str "EVT_0001"; Str "event"; Str "EVT_INTEROP_CROSSOVER"; Str "2024"; NA; NA];
          [Str "EVT_0002"; Str "event"; Str "EVT_FAYDA_ROLLOUT"; Str "2023"; NA; NA];
          [Str "LNK_0001"; Str "impact_link"; NA; NA; Str "EVT_0001";
           Str "USG_DIGITAL_PAYMENT"];
          [Str "LNK_0002"; Str "impact_link"; NA; NA; Str "EVT_0002";
           Str "ACC_OWNERSHIP"] ].
Proof. eexists. split; [reflexivity |]. vm_compute. reflexivity. Qed.

(** Scenario B: the Fayda event of the input is kept and not doubled; its
    link points at it. *)
Example scenario_B :
  ∃ out : DataFrame,
    enrich table_fayda = Ok out
    ∧ digest <$> rows out
      = [ [Str "EVT_0004"; Str "event"; Str "EVT_FAYDA_ROLLOUT"; NA; NA; NA];
          [Str "EVT_0005"; Str "event"; Str "EVT_INTEROP_CROSSOVER"; Str "2024"; NA; NA];
          [Str "LNK_0001"; Str "impact_link"; NA; NA; Str "EVT_0005";
           Str "USG_DIGITAL_PAYMENT"];
          [Str "LNK_0002"; Str "impact_link"; NA; NA; Str "EVT_0004";
           Str "ACC_OWNERSHIP"] ].
Proof. eexists. split; [reflexivity |]. vm_compute. reflexivity. Qed.

(** ** Running the transform on its own output *)

(** The facts a second run rests on; the statement itself is made for
    tables whose identifiers are text or null, in the part on text
    identifiers below. *)

Section Twice.

Lemma fix_collector_fields_id (df : DataFrame) :
  Forall (fun r => fix_mask r = false) (rows df) → fix_collector_fields df = df.
Proof.
  intros H. unfold fix_collector_fields. destruct (_ || _); [done |].
  destruct df as [cs rs]. simpl in *. f_equal.
  induction H as [|r rs Hr H IH]; [done |].
  simpl. by rewrite IH, fix_row_idle.
Qed.

Lemma fix_mask_no_key (r : Row) : "collected_by" ∉ keys r → fix_mask r = false.
Proof.
  intros H%dict_get_None. unfold fix_mask, cell_at. by rewrite H.
Qed.

(** After the correction pass of a first run no row matches the mask,
    unless the table had [collected_by] and no [collection_date]. *)
Lemma fix_settled (df : DataFrame) :
  well_formed df = true →
  has_col df "collection_date" = true ∨ has_col df "collected_by" = false →
  Forall (fun r => fix_mask r = false) (rows (fix_collector_fields df)).
Proof.
  intros Hwf Hcols. unfold fix_collector_fields.
  destruct (has_col df "collected_by") eqn:Hc; simpl.
  - destruct Hcols as [Hd | ?]; [| done]. rewrite Hd. simpl.
    apply Forall_forall. intros r' (r & -> & _)%list_elem_of_fmap.
    apply fix_mask_fix_row.
  - apply Forall_forall. intros r Hr. apply fix_mask_no_key. intros Hk.
    apply (well_formed_true df Hwf r Hr), has_col_true in Hk. congruence.
Qed.

Lemma passes_false_covered (lk : gmap string cell) (ks : gset (string * string))
    (c : link_call) :
  (is_Some (lk !! parent_event_code c) → call_key lk c ∈ ks) → passes lk ks c = false.
Proof.
  intros H. unfold passes. destruct (lk !! parent_event_code c) eqn:E; [| done].
  apply bool_decide_eq_false. intros Hn. apply Hn, H. by eexists.
Qed.

(** A second run finds both events and every resolvable link in place. *)
Lemma enrich_again (df out : DataFrame) :
  has_required df → enrich df = Ok out →
  enrich out = Ok (fix_collector_fields out).
Proof.
  intros Hreq E.
  destruct (enrich_spec df Hreq) as (d2 & out' & new & _ & E' & G1 & G2 & Hi & Hf & R & F & K & C).
  rewrite E in E'. injection E' as <-.
  assert (Hreq2 : has_required d2)
    by (eapply has_required_grows; [exact G1 | by apply has_required_fix]).
  assert (Hreqo : has_required out) by (by eapply has_required_grows).
  pose proof (lookup_of_grows_link _ _ _ G2) as HL.
  destruct (event_phase_spec (columns out) out Hreqo) as (e2 & Ee & _ & _ & _ & Hsame).
  rewrite Hsame in Ee by (by rewrite HL).
  unfold enrich. rewrite Ee, bind_Ok. unfold link_phase.
  destruct (has_required_cols _ (has_required_fix _ Hreqo)) as (Hid & Hrt & Hic & _).
  rewrite event_lookup_ok, bind_Ok by done.
  rewrite existing_link_keys_ok, bind_Ok by done.
  apply add_links_idle. intros c Hc. apply passes_false_covered.
  rewrite lookup_of_fix_frame, HL. intros Hres.
  apply link_keys_of_elem, covered_fix.
  destruct (passes (lookup_of (rows d2)) (link_keys_of d2) c) eqn:Hp.
  - by apply C.
  - eapply covered_grows; [exact G2 |]. apply link_keys_of_elem.
    unfold passes in Hp. destruct Hres as [pid Hpid]. rewrite Hpid in Hp.
    apply bool_decide_eq_false in Hp.
    by destruct (decide (call_key (lookup_of (rows d2)) c ∈ link_keys_of d2)).
Qed.

End Twice.

(** ** De-duplication of impact links within a run *)

Section LinkKeys.

(** An entry of the lookup comes from a row that has the code and the
    identifier. *)
Lemma lookup_of_Some_inv (rs : list Row) (c : string) (v : cell) :
  lookup_of rs !! c = Some v →
  ∃ (i : nat) (r : Row),
    rs !! i = Some r ∧ cell_at "indicator_code" r = Str c ∧ cell_at ID_COL r = v.
Proof.
  induction rs as [|r rs IH] using rev_ind; [done |].
  rewrite lookup_of_snoc. intros H.
  assert (Hold : lookup_of rs !! c = Some v →
    ∃ i r0, (rs ++ [r]) !! i = Some r0
            ∧ cell_at "indicator_code" r0 = Str c ∧ cell_at ID_COL r0 = v).
  { intros (i & r0 & Hi & Hc & Hv)%IH. exists i, r0. split_and!; try done.
    by apply lookup_app_l_Some. }
  destruct (is_kind "event" r); [| by apply Hold].
  unfold lookup_step in H.
  destruct (cell_at "indicator_code" r) as [|code| |] eqn:Ec; try by apply Hold.
  destruct (decide (code = c)) as [->|Hne].
  - rewrite lookup_insert_eq in H. injection H as <-.
    exists (length rs), r. split_and!; try done.
    by rewrite lookup_app_r, Nat.sub_diag.
  - rewrite lookup_insert_ne in H by done. by apply Hold.
Qed.

Lemma next_id_not_nan (l : list cell) : next_id l "EVT" ≠ "nan" ∧ next_id l "LNK" ≠ "nan".
Proof. split; by rewrite next_id_eq. Qed.

Lemma next_id_fresh_str (l : list cell) (P : string) :
  next_id l P ≠ "nan" → next_id l P ∉ py_str <$> l.
Proof.
  intros Hn (x & E & Hx)%list_elem_of_fmap.
  apply (next_id_not_in l P). unfold id_strings.
  apply list_elem_of_fmap. exists x. split; [done |].
  apply list_elem_of_filter. split; [| done].
  by destruct x.
Qed.

Lemma grows_str_ids (cols : list string) (a b : DataFrame) :
  grows (append_step cols) a b →
  NoDup (py_str <$> ids a) → NoDup (py_str <$> ids b).
Proof.
  intros G Ha. induction G as [|b row G IH Hs]; [done |].
  unfold ids. simpl. rewrite map_app. rewrite fmap_app.
  apply NoDup_app. split_and!; [done | | apply NoDup_singleton].
  intros x Hx ->%list_elem_of_singleton.
  destruct (next_id_not_nan (ids b)) as [He Hl].
  destruct Hs as [(e & y & ->) | (l & ->)].
  - rewrite event_row_id in Hx. by apply (next_id_fresh_str (ids b) "EVT").
  - rewrite link_row_id in Hx. by apply (next_id_fresh_str (ids b) "LNK").
Qed.

(** With identifiers that print differently, two codes never resolve to
    the same parent. *)
Lemma lookup_of_distinct (rs : list Row) (c1 c2 : string) (p q : cell) :
  NoDup (py_str <$> map (cell_at ID_COL) rs) →
  c1 ≠ c2 →
  lookup_of rs !! c1 = Some p → lookup_of rs !! c2 = Some q →
  py_str p ≠ py_str q.
Proof.
  intros Nd Hne (i & r1 & Hi & Hc1 & <-)%lookup_of_Some_inv
                (j & r2 & Hj & Hc2 & <-)%lookup_of_Some_inv E.
  assert (Hij : i = j).
  { eapply NoDup_lookup; [exact Nd | |].
    - change (map (cell_at ID_COL) rs) with (cell_at ID_COL <$> rs).
      by rewrite !list_lookup_fmap, Hi.
    - change (map (cell_at ID_COL) rs) with (cell_at ID_COL <$> rs).
      rewrite !list_lookup_fmap, Hj. simpl. by rewrite E. }
  subst j. rewrite Hi in Hj. injection Hj as <-. congruence.
Qed.

Lemma NoDup_fmap_filter {A B : Type} `{EqDecision B} (f : A → B) (p : A → bool)
    (l : list A) :
  (∀ i j x y, l !! i = Some x → l !! j = Some y → i ≠ j →
              p x = true → p y = true → f x ≠ f y) →
  NoDup (f <$> filter (fun x => p x) l).
Proof.
  induction l as [|a l IH]; intros H; [constructor |].
  rewrite filter_cons.
  assert (IHl : NoDup (f <$> filter (λ x : A, p x) l)).
  { apply IH. intros i j x y Hi Hj Hij. apply (H (S i) (S j)); [done | done | lia]. }
  destruct (decide _) as [Hp|Hp]; [| done].
  rewrite fmap_cons. constructor; [| done].
  intros (y & E & Hy)%list_elem_of_fmap.
  apply list_elem_of_filter in Hy as [Hpy Hy].
  apply list_elem_of_lookup in Hy as [j Hj].
  apply (H 0 (S j) a y); try done.
  - by destruct (p a).
  - by destruct (p y).
Qed.

(** The keys of the calls that pass are pairwise distinct once the two
    calls on [USG_DIGITAL_PAYMENT] have parents that print differently. *)
Lemma passing_keys_distinct (lk : gmap string cell) (ks : gset (string * string)) :
  (∀ p q, lk !! "EVT_TELEBIRR" = Some p → lk !! "EVT_INTEROP_CROSSOVER" = Some q →
          py_str p ≠ py_str q) →
  NoDup (call_key lk <$> filter (fun c => passes lk ks c) link_calls).
Proof.
  intros Hpq. apply NoDup_fmap_filter.
  intros i j x y Hi Hj Hij Hx Hy.
  unfold passes in Hx, Hy. unfold call_key.
  destruct (lk !! parent_event_code x) as [p|] eqn:Ex; [| done].
  destruct (lk !! parent_event_code y) as [q|] eqn:Ey; [| done].
  unfold link_calls in Hi, Hj.
  destruct i as [|[|[|[|[|i]]]]]; try done;
  destruct j as [|[|[|[|[|j]]]]]; try done;
  simplify_eq/=; try (intros [= ?]; done);
  intros [= E]; [by apply (Hpq p q) | by apply (Hpq q p)].
Qed.

End LinkKeys.

(** ** A link whose parent event is unknown *)

(** C4.  A call of [maybe_add_link] whose parent event code is not in the
    event lookup returns the frame it was given: no row, no partial record,
    no exception, whatever the de-duplication set holds. *)
Theorem unresolved_parent_is_skipped (cols : list string) (lk : gmap string cell)
    (ks : gset (string * string)) (c : link_call) (df : DataFrame) :
  lk !! parent_event_code c = None →
  maybe_add_link cols lk ks c df = Ok df ∧ passes lk ks c = false.
Proof.
  intros H. unfold maybe_add_link, passes. by rewrite H.
Qed.

Lemma unresolved_parent_is_skipped_witness :
  ({[ "EVT_TELEBIRR" := Str "EVT_0001" ]} : gmap string cell)
    !! parent_event_code call_safaricom = None
  ∧ maybe_add_link (columns table_min) {[ "EVT_TELEBIRR" := Str "EVT_0001" ]}
      {[ ("EVT_0001", "ACC_MM_ACCOUNT") ]} call_safaricom table_min = Ok table_min
  ∧ passes {[ "EVT_TELEBIRR" := Str "EVT_0001" ]}
      {[ ("EVT_0001", "ACC_MM_ACCOUNT") ]} call_safaricom = false.
Proof.
  split; [reflexivity |].
  apply (unresolved_parent_is_skipped (columns table_min)
           {[ "EVT_TELEBIRR" := Str "EVT_0001" ]}
           {[ ("EVT_0001", "ACC_MM_ACCOUNT") ]} call_safaricom table_min).
  reflexivity.
Defined.

(** ** The process *)

Section Process.




End Process.


Example scenario_C :
  main {| raw := Loads table_no_record_type; out := None; processed_dir := false;
          stdout := []; stderr := [] |}
  = (Exit 2,
     {| raw := Loads table_no_record_type; out := None; processed_dir := true;
        stdout := [];
        stderr := [Text "[ERROR] Missing required column: record_type"] |}).
Proof. reflexivity. Qed.



(* ===================================================================== *)
(** * Further properties of the script                                     *)
(* ===================================================================== *)

(** ** The base row *)

Section BaseRow.

Lemma dict_set_keys_NoDup (k : string) (v : cell) (d : Row) :
  NoDup (keys d) → NoDup (keys (dict_set k v d)).
Proof.
  unfold keys. induction d as [|[k' v'] d IH]; simpl; intros Hd.
  - apply NoDup_singleton.
  - apply NoDup_cons in Hd as [Hk' Hd].
    destruct (String.eqb_spec k k') as [->|Hne]; simpl.
    + by apply NoDup_cons.
    + apply NoDup_cons. split; [| by apply IH].
      fold (keys (dict_set k v d)). rewrite keys_set.
      intros [E | Hin]; [congruence | done].
Qed.

Lemma assign_keys_NoDup (d : Row) (kvs : list (string * cell)) :
  NoDup (keys d) → NoDup (keys (assign d kvs)).
Proof.
  unfold assign. revert d. induction kvs as [|[k v] kvs IH]; intros d Hd; [done |].
  simpl. by apply IH, dict_set_keys_NoDup.
Qed.

Lemma dict_set_fresh (k : string) (v : cell) (d : Row) :
  k ∉ keys d → dict_set k v d = d ++ [(k, v)].
Proof.
  unfold keys. induction d as [|[k' v'] d IH]; simpl; intros Hk; [done |].
  apply not_elem_of_cons in Hk as [Hne Hk].
  destruct (String.eqb_spec k k'); [done |]. by rewrite IH.
Qed.

Lemma mk_base_row_NoDup_eq (cols : list string) :
  NoDup cols → mk_base_row cols = map (fun c => (c, NA)) cols.
Proof.
  unfold mk_base_row, assign.
  assert (G : ∀ (l : list string) (d : Row),
    NoDup (keys d ++ l) →
    fold_left (fun d kv => dict_set (fst kv) (snd kv) d)
      (map (fun c => (c, NA)) l) d
    = d ++ map (fun c => (c, NA)) l).
  { induction l as [|c l IH]; intros d Hd; simpl; [by rewrite app_nil_r |].
    apply NoDup_app in Hd as (Hd & Hdis & Hl).
    apply NoDup_cons in Hl as [Hc Hl].
    rewrite dict_set_fresh by (intros Hin; apply (Hdis c Hin); by left).
    rewrite IH.
    - by rewrite <- app_assoc.
    - unfold keys. rewrite map_app. simpl. rewrite <- app_assoc. simpl.
      apply NoDup_app. split_and!; [done | | by apply NoDup_cons].
      intros x Hx Hx'. by apply (Hdis x Hx). }
  intros Hc. by rewrite (G cols []).
Qed.

End BaseRow.

(** X1.  [mk_base_row] gives a dict with one key for each label, each key
    once even when a label is repeated, and a null under every key; when
    the labels are distinct the keys are the labels in their order. *)
Theorem mk_base_row_keys (cols : list string) :
  NoDup (keys (mk_base_row cols))
  ∧ (∀ c, c ∈ keys (mk_base_row cols) ↔ c ∈ cols)
  ∧ (∀ c, cell_at c (mk_base_row cols) = NA)
  ∧ (NoDup cols → keys (mk_base_row cols) = cols).
Proof.
  split_and!.
  - unfold mk_base_row. apply assign_keys_NoDup. constructor.
  - apply keys_mk_base_row.
  - apply cell_at_mk_base_row.
  - intros Hc. rewrite mk_base_row_NoDup_eq by done. unfold keys.
    rewrite map_map. simpl. apply map_id.
Qed.

(** ** More on the identifier generator *)

Section NextIdMore.
Import Py PyFacts.

Lemma id_strings_snoc (l : list cell) (s : string) :
  id_strings (l ++ [Str s]) = id_strings l ++ [s].
Proof. unfold id_strings. by rewrite filter_app, map_app. Qed.

Lemma next_number_ext (P : string) (a b : list string) :
  (∀ k, k ∈ id_numbers P a ↔ k ∈ id_numbers P b) →
  next_number P a = next_number P b.
Proof.
  intros H.
  pose proof (next_number_pos P a). pose proof (next_number_pos P b).
  destruct (next_number_least P a) as [Ea | Ha];
    destruct (next_number_least P b) as [Eb | Hb].
  - congruence.
  - apply H, next_number_above in Hb. lia.
  - apply H, next_number_above in Ha. lia.
  - apply H, next_number_above in Ha. apply H, next_number_above in Hb. lia.
Qed.

Lemma next_number_snoc_own (P : string) (l : list string) :
  next_number P (l ++ [P +:+ "_" +:+ digits_04 (next_number P l)])
  = (next_number P l + 1)%Z.
Proof.
  set (n := next_number P l).
  set (l' := l ++ [P +:+ "_" +:+ digits_04 n]).
  assert (Hn : (1 ≤ n)%Z) by apply next_number_pos.
  assert (Hown : parses_as P (P +:+ "_" +:+ digits_04 n) n).
  { exists (digits_04 n). split_and!.
    - by left.
    - intros E. pose proof (digits_04_length n) as Hl. rewrite E in Hl.
      simpl in Hl. lia.
    - apply digits_04_all_digits.
    - apply int_digits_04. lia. }
  assert (Hin : n ∈ id_numbers P l').
  { apply id_numbers_elem. eexists. split; [| exact Hown].
    unfold l'. apply elem_of_app. right. by apply list_elem_of_singleton. }
  pose proof (next_number_above P l' n Hin) as Habove.
  destruct (next_number_least P l') as [E | Hl]; [lia |].
  apply id_numbers_elem in Hl as (x & Hx & Hp).
  unfold l' in Hx. apply elem_of_app in Hx as [Hx | Hx%list_elem_of_singleton].
  - assert (Hk : (next_number P l' - 1)%Z ∈ id_numbers P l)
      by (apply id_numbers_elem; eauto).
    apply next_number_above in Hk. fold n in Hk. lia.
  - subst x.
    assert (Hk1 : (next_number P l' - 1)%Z ∈ id_numbers P [P +:+ "_" +:+ digits_04 n]).
    { apply id_numbers_elem. eexists. split; [by apply list_elem_of_singleton | done]. }
    assert (Hk2 : id_numbers P [P +:+ "_" +:+ digits_04 n] = [n]).
    { unfold id_numbers. simpl.
      assert (Hm : match_id P (P +:+ "_" +:+ digits_04 n) = Some (digits_04 n)).
      { apply match_id_Some. destruct Hown as (ds & _ & _). split_and!.
        - intros E. pose proof (digits_04_length n) as Hl. rewrite E in Hl.
          simpl in Hl. lia.
        - apply digits_04_all_digits.
        - by left. }
      rewrite Hm. simpl. by rewrite int_digits_04 by lia. }
    rewrite Hk2 in Hk1. apply list_elem_of_singleton in Hk1. lia.
Qed.

End NextIdMore.

(** X2.  When [next_id] has returned an identifier, appending it to the
    column and asking again under the same prefix gives the next number: a
    run of appends under one prefix is numbered consecutively.  This holds
    up to the interpreter's limit on digits; the call that would need a
    number of more than 4300 digits raises [ValueError]. *)
Theorem next_id_limited_consecutive (l : list cell) (P s : string) :
  next_id_limited l P = Ok s →
  ∃ n : Z,
    (1 ≤ n)%Z
    ∧ s = P +:+ "_" +:+ padded_04 n
    ∧ ((String.length (Py.str_int (n + 1)) ≤ Py.int_max_str_digits)%nat →
       next_id_limited (l ++ [Str s]) P = Ok (P +:+ "_" +:+ padded_04 (n + 1)))
    ∧ ((Py.int_max_str_digits < String.length (Py.str_int (n + 1)))%nat →
       next_id_limited (l ++ [Str s]) P = Raise ValueError).
Proof.
  rewrite next_id_limited_eq.
  set (n := next_number_limited P (id_strings l)).
  assert (Hn : (1 ≤ n)%Z) by apply next_number_limited_pos.
  destruct (Nat.ltb_spec Py.int_max_str_digits (Py.nb_decimal_digits n)) as [H|H];
    [done |].
  intros [= <-]. exists n.
  assert (Hnext : next_number_limited P
                    (id_strings (l ++ [Str (P +:+ "_" +:+ Py.digits_04 n)]))
                  = (n + 1)%Z).
  { rewrite id_strings_snoc. by apply next_number_limited_snoc_own. }
  rewrite <- nb_decimal_digits_str_int by lia.
  split_and!.
  - done.
  - by rewrite padded_04_digits by lia.
  - intros Hl. rewrite next_id_limited_eq, Hnext.
    destruct (Nat.ltb_spec Py.int_max_str_digits (Py.nb_decimal_digits (n + 1)));
      [lia |].
    by rewrite padded_04_digits by lia.
  - intros Hl. rewrite next_id_limited_eq, Hnext.
    by destruct (Nat.ltb_spec Py.int_max_str_digits (Py.nb_decimal_digits (n + 1)));
      [| lia].
Qed.

Lemma next_id_limited_consecutive_witness :
  next_id_limited [Str "EVT_0007"; NA] "EVT" = Ok "EVT_0008"
  ∧ ∃ n : Z,
      (1 ≤ n)%Z
      ∧ "EVT_0008" = "EVT" +:+ "_" +:+ padded_04 n
      ∧ ((String.length (Py.str_int (n + 1)) ≤ Py.int_max_str_digits)%nat →
         next_id_limited ([Str "EVT_0007"; NA] ++ [Str "EVT_0008"]) "EVT"
         = Ok ("EVT" +:+ "_" +:+ padded_04 (n + 1)))
      ∧ ((Py.int_max_str_digits < String.length (Py.str_int (n + 1)))%nat →
         next_id_limited ([Str "EVT_0007"; NA] ++ [Str "EVT_0008"]) "EVT"
         = Raise ValueError).
Proof.
  split; [vm_compute; reflexivity |].
  apply (next_id_limited_consecutive [Str "EVT_0007"; NA] "EVT" "EVT_0008").
  vm_compute. reflexivity.
Defined.

(** X3.  [next_id] looks at the identifiers as a set of texts: nulls,
    repetitions and the order of the column make no difference. *)
Theorem next_id_set (l l' : list cell) (P : string) :
  (∀ x, x ∈ id_strings l ↔ x ∈ id_strings l') →
  next_id l P = next_id l' P.
Proof.
  intros H. rewrite !next_id_eq. do 3 f_equal.
  apply next_number_ext. intros k. rewrite !id_numbers_elem.
  split; intros (x & Hx & Hp); exists x; (split; [by apply H | done]).
Qed.

Lemma next_id_set_witness :
  (∀ x, x ∈ id_strings [Str "EVT_0002"; NA; Str "EVT_0001"; Str "REC_0009"]
        ↔ x ∈ id_strings [Str "REC_0009"; Str "EVT_0001"; Str "EVT_0002";
                           Str "EVT_0001"])
  ∧ next_id [Str "EVT_0002"; NA; Str "EVT_0001"; Str "REC_0009"] "EVT"
    = next_id [Str "REC_0009"; Str "EVT_0001"; Str "EVT_0002"; Str "EVT_0001"] "EVT".
Proof.
  assert (H : ∀ x, x ∈ id_strings [Str "EVT_0002"; NA; Str "EVT_0001"; Str "REC_0009"]
        ↔ x ∈ id_strings [Str "REC_0009"; Str "EVT_0001"; Str "EVT_0002";
                           Str "EVT_0001"]).
  { intros x. vm_compute id_strings. rewrite !elem_of_cons, !elem_of_nil. tauto. }
  split; [exact H |].
  apply (next_id_set _ _ "EVT" H).
Defined.

(** ** Columns after an append *)

Lemma concat_row_columns (df : DataFrame) (row : Row) (c : string) :
  c ∈ columns (concat_row df row) ↔ c ∈ columns df ∨ c ∈ keys row.
Proof.
  unfold concat_row. cbn [columns]. rewrite elem_of_app, list_elem_of_filter.
  destruct (decide (c ∈ columns df)); naive_solver.
Qed.

(** ** The lookup and the de-duplication set, entry by entry *)

Section LookupMore.

Lemma lookup_step_lookup (m : gmap string cell) (r : Row) (c : string) :
  lookup_step m r !! c
  = if bool_decide (cell_at "indicator_code" r = Str c)
    then Some (cell_at ID_COL r) else m !! c.
Proof.
  unfold lookup_step. destruct (cell_at "indicator_code" r) as [|code| |] eqn:E;
    try (by rewrite bool_decide_eq_false_2).
  case_bool_decide as H.
  - injection H as ->. by rewrite lookup_insert_eq.
  - rewrite lookup_insert_ne; [done | congruence].
Qed.

Lemma lookup_of_resolves (rs : list Row) (c : string) (v : cell) :
  lookup_of rs !! c = Some v ↔ resolves rs c v.
Proof.
  revert v. induction rs as [|r0 rs IH] using rev_ind; intros v.
  - split; [done |]. by intros (i & r & Hi & _).
  - rewrite lookup_of_snoc.
    destruct (is_kind "event" r0 && bool_decide (cell_at "indicator_code" r0 = Str c))
      eqn:Hlast.
    + apply andb_prop in Hlast as [Hk Hc]. apply bool_decide_eq_true in Hc.
      rewrite Hk, lookup_step_lookup, bool_decide_eq_true_2 by done. split.
      * intros [= <-]. exists (length rs), r0. split_and!; try done.
        { by rewrite lookup_app_r, Nat.sub_diag. }
        intros j r' Hj Hr'. apply lookup_lt_Some in Hr'.
        rewrite length_app in Hr'. simpl in Hr'. lia.
      * intros (i & r & Hi & Hrk & Hrc & Hv & Hlater).
        destruct (decide (i = length rs)) as [->|Hne].
        { rewrite lookup_app_r, Nat.sub_diag in Hi by done.
          injection Hi as <-. by rewrite Hv. }
        assert (Hlt : (i < length rs)%nat).
        { apply lookup_lt_Some in Hi. rewrite length_app in Hi. simpl in Hi. lia. }
        exfalso. apply (Hlater (length rs) r0); try done.
        by rewrite lookup_app_r, Nat.sub_diag.
    + assert (E : (if is_kind "event" r0 then lookup_step (lookup_of rs) r0
                   else lookup_of rs) !! c = lookup_of rs !! c).
      { destruct (is_kind "event" r0); [| done]. simpl in Hlast.
        by rewrite lookup_step_lookup, Hlast. }
      rewrite E, IH. split.
      * intros (i & r & Hi & Hrk & Hrc & Hv & Hlater).
        exists i, r. split_and!; try done.
        { by apply lookup_app_l_Some. }
        intros j r' Hj Hr' Hk'.
        apply lookup_app_Some in Hr' as [Hr' | [Hlen Hr']]; [by eapply Hlater |].
        apply list_lookup_singleton_Some in Hr' as [_ <-].
        rewrite Hk' in Hlast. simpl in Hlast.
        by apply bool_decide_eq_false in Hlast.
      * intros (i & r & Hi & Hrk & Hrc & Hv & Hlater).
        apply lookup_app_Some in Hi as [Hi | [Hlen Hi]].
        { exists i, r. split_and!; try done.
          intros j r' Hj Hr'. apply (Hlater j r' Hj). by apply lookup_app_l_Some. }
        apply list_lookup_singleton_Some in Hi as [_ <-].
        rewrite Hrk in Hlast. simpl in Hlast.
        apply bool_decide_eq_false in Hlast. done.
Qed.

End LookupMore.

(** X6.  [event_lookup] raises [KeyError] on a frame without the type, the
    identifier or the code column; otherwise a code maps to an identifier
    exactly when the last row typed [event] that carries the code carries
    that identifier: rows of another type and rows without a code take no
    part, and of two events with one code the later one wins. *)
Theorem event_lookup_outcome (df : DataFrame) :
  match event_lookup df with
  | Ok m => ∀ (c : string) (v : cell), m !! c = Some v ↔ resolves (rows df) c v
  | Raise e =>
      ∃ k : string,
        e = KeyError k ∧ (k ∉ columns df)
        ∧ k ∈ ["record_type"; ID_COL; "indicator_code"]
  end.
Proof.
  unfold event_lookup, getcol.
  destruct (has_col df "record_type") eqn:H1.
  2:{ exists "record_type". split_and!; [done | | by left].
      intros H%has_col_true. congruence. }
  rewrite bind_Ok.
  destruct (has_col df ID_COL) eqn:H2.
  2:{ exists ID_COL. split_and!; [done | | right; by left].
      intros H%has_col_true. congruence. }
  rewrite bind_Ok.
  destruct (has_col df "indicator_code") eqn:H3.
  2:{ exists "indicator_code". split_and!; [done | | right; right; by left].
      intros H%has_col_true. congruence. }
  rewrite bind_Ok. fold (lookup_of (rows df)).
  intros c v. apply lookup_of_resolves.
Qed.

(** X7.  [existing_link_keys] raises [KeyError] on a frame without the
    type column; otherwise a pair is in the set exactly when the frame has
    both the [parent_id] and the [related_indicator] column and some row
    typed [impact_link] shows that pair as text.  Without one of the two
    columns the set is empty, whatever the other column holds. *)
Theorem existing_link_keys_outcome (df : DataFrame) :
  match existing_link_keys df with
  | Ok ks =>
      (∀ key : string * string, key ∈ ks ↔ covered df key)
      ∧ (has_col df "parent_id" = false ∨ has_col df "related_indicator" = false →
         ks = ∅)
  | Raise e => e = KeyError "record_type" ∧ has_col df "record_type" = false
  end.
Proof.
  unfold existing_link_keys, getcol.
  destruct (has_col df "record_type") eqn:H1; [| done].
  rewrite bind_Ok. fold (link_keys_of df). split.
  - intros key. apply link_keys_of_elem.
  - intros H. apply leibniz_equiv, elem_of_equiv_empty. intros key Hk.
    apply link_keys_of_elem in Hk as (Hp%has_col_true & Hr%has_col_true & _).
    destruct H; congruence.
Qed.

(** ** A run, row by row *)

Section Run.

Lemma add_event_if_absent_shape (cols : list string) (a : event_args) (y : Z)
    (df : DataFrame) :
  ID_COL ∈ columns df →
  to_datetime_year (event_date a) = Ok y →
  ∃ df' : DataFrame,
    add_event_if_absent cols a (df, lookup_of (rows df))
    = Ok (df', lookup_of (rows df'))
    ∧ ((is_Some (lookup_of (rows df) !! indicator_code a) ∧ df' = df)
       ∨ (lookup_of (rows df) !! indicator_code a = None
          ∧ df' = concat_row df (event_row cols a (next_id (ids df) "EVT") y))).
Proof.
  intros Hid Hy. unfold add_event_if_absent.
  destruct (lookup_of (rows df) !! indicator_code a) as [v|] eqn:E.
  - exists df. split; [done |]. left. split; [by eexists | done].
  - rewrite (add_event_ok _ _ _ y) by done. rewrite bind_Ok.
    eexists. split; [| right; split; reflexivity].
    rewrite event_row_id. do 2 f_equal. cbn [rows concat_row].
    by rewrite lookup_of_snoc_event.
Qed.

Lemma event_phase_steps (cols : list string) (df : DataFrame) :
  has_required df →
  ∃ d1 d2 : DataFrame,
    event_phase cols df = Ok d2
    ∧ ((is_Some (lookup_of (rows df) !! "EVT_INTEROP_CROSSOVER")
        ∧ d1 = fix_collector_fields df)
       ∨ (lookup_of (rows df) !! "EVT_INTEROP_CROSSOVER" = None
          ∧ d1 = concat_row (fix_collector_fields df)
                   (event_row cols interop_crossover
                      (next_id (ids (fix_collector_fields df)) "EVT") 2024)))
    ∧ ((is_Some (lookup_of (rows d1) !! "EVT_FAYDA_ROLLOUT") ∧ d2 = d1)
       ∨ (lookup_of (rows d1) !! "EVT_FAYDA_ROLLOUT" = None
          ∧ d2 = concat_row d1
                   (event_row cols fayda_rollout (next_id (ids d1) "EVT") 2023))).
Proof.
  intros (Hid & Hrt & Hic & _)%has_required_cols.
  unfold event_phase.
  set (d0 := fix_collector_fields df).
  assert (Hc0 : ∀ c, c ∈ columns df → c ∈ columns d0)
    by (intros c; unfold d0; by rewrite fix_collector_fields_columns).
  rewrite event_lookup_ok by (by apply Hc0). rewrite bind_Ok.
  destruct (add_event_if_absent_shape cols interop_crossover 2024 d0)
    as (d1 & E1 & S1); [by apply Hc0 | done |].
  rewrite E1, bind_Ok.
  assert (Hid1 : ID_COL ∈ columns d1).
  { destruct S1 as [[_ ->] | [_ ->]]; [by apply Hc0 |].
    apply concat_row_columns. left. by apply Hc0. }
  destruct (add_event_if_absent_shape cols fayda_rollout 2023 d1)
    as (d2 & E2 & S2); [done | done |].
  rewrite E2, bind_Ok. exists d1, d2. split; [done |].
  unfold d0 in S1. rewrite lookup_of_fix_frame in S1. by split.
Qed.

Lemma add_links_rows (cols : list string) (lk : gmap string cell)
    (ks : gset (string * string)) (calls : list link_call) (df : DataFrame) :
  ID_COL ∈ columns df →
  ∃ (df' : DataFrame) (new : list Row),
    add_links cols lk ks calls df = Ok df'
    ∧ rows df' = rows df ++ new
    ∧ length new = length (filter (fun c => passes lk ks c) calls)
    ∧ Forall (fun r =>
        ∃ (c : link_call) (pid : cell) (id : string),
          c ∈ calls ∧ lk !! parent_event_code c = Some pid
          ∧ ((py_str pid, call_related_indicator c) ∉ ks)
          ∧ r = link_row cols (call_args c pid) id) new.
Proof.
  revert df. induction calls as [|c calls IH]; intros df Hid.
  - exists df, []. by rewrite app_nil_r.
  - cbn [add_links].
    destruct (maybe_add_link_spec cols lk ks c df Hid) as (d1 & E1 & H1).
    rewrite E1, bind_Ok, filter_passes_cons.
    assert (Hmono : ∀ new : list Row,
      Forall (fun r => ∃ c0 pid id, c0 ∈ calls
                ∧ lk !! parent_event_code c0 = Some pid
                ∧ ((py_str pid, call_related_indicator c0) ∉ ks)
                ∧ r = link_row cols (call_args c0 pid) id) new →
      Forall (fun r => ∃ c0 pid id, c0 ∈ c :: calls
                ∧ lk !! parent_event_code c0 = Some pid
                ∧ ((py_str pid, call_related_indicator c0) ∉ ks)
                ∧ r = link_row cols (call_args c0 pid) id) new).
    { intros new HF. eapply Forall_impl; [exact HF |].
      intros r (c0 & pid & id & Hin & H). exists c0, pid, id.
      split; [by right | done]. }
    destruct (passes lk ks c) eqn:Hp.
    + destruct H1 as (pid & Hpid & ->).
      set (row := link_row cols (call_args c pid) (next_id (ids df) "LNK")).
      destruct (IH (concat_row df row)) as (d2 & new & E2 & R2 & L2 & F2).
      { apply concat_row_columns. by left. }
      exists d2, (row :: new). rewrite E2. split_and!.
      * done.
      * rewrite R2. cbn [rows concat_row]. by rewrite <- app_assoc.
      * cbn [length]. by rewrite L2.
      * constructor; [| by apply Hmono].
        exists c, pid, (next_id (ids df) "LNK"). split_and!; try done; [by left |].
        unfold passes, call_key in Hp. rewrite Hpid in Hp. simpl in Hp.
        by apply bool_decide_eq_true in Hp.
    + subst d1. destruct (IH df Hid) as (d2 & new & E2 & R2 & L2 & F2).
      exists d2, new. rewrite E2. split_and!; try done. by apply Hmono.
Qed.

(** One run: the corrected rows, then at most one row for each catalogue
    event, then the rows of the link calls that pass. *)
Lemma enrich_rows (df : DataFrame) :
  has_required df →
  ∃ (d2 out : DataFrame) (evs new : list Row),
    enrich df = Ok out
    ∧ rows d2 = rows (fix_collector_fields df) ++ evs
    ∧ rows out = rows d2 ++ new
    ∧ (length evs ≤ 2)%nat
    ∧ Forall (fun r => is_kind "event" r = true) evs
    ∧ (length new ≤ 5)%nat
    ∧ lookup_of (rows out) = lookup_of (rows d2)
    ∧ Forall (fun r =>
        ∃ (c : link_call) (pid : cell) (id : string),
          c ∈ link_calls ∧ lookup_of (rows d2) !! parent_event_code c = Some pid
          ∧ ((py_str pid, call_related_indicator c) ∉ link_keys_of d2)
          ∧ r = link_row (columns df) (call_args c pid) id) new.
Proof.
  intros Hreq.
  destruct (event_phase_steps (columns df) df Hreq) as (d1 & d2 & E & S1 & S2).
  destruct (enrich_spec df Hreq)
    as (d2' & out & _ & E' & Eo & _ & G2 & _).
  rewrite E in E'. injection E' as <-.
  assert (Hreq2 : has_required d2).
  { destruct (event_phase_spec (columns df) df Hreq) as (d2'' & E'' & G & _).
    rewrite E in E''. injection E'' as <-.
    eapply has_required_grows; [exact G | by apply has_required_fix]. }
  destruct (has_required_cols _ Hreq2) as (Hid & Hrt & Hic & _).
  destruct (add_links_rows (columns df) (lookup_of (rows d2)) (link_keys_of d2)
              link_calls d2 Hid) as (out' & new & EL & R & L & F).
  assert (Eout : enrich df = Ok out').
  { unfold enrich. rewrite E, bind_Ok. unfold link_phase.
    rewrite event_lookup_ok, bind_Ok by done.
    by rewrite existing_link_keys_ok, bind_Ok. }
  rewrite Eo in Eout. injection Eout as <-.
  assert (Hev : ∀ a id y, is_kind "event" (event_row (columns df) a id y) = true).
  { intros a id y. unfold is_kind. by rewrite event_row_type. }
  assert (Hevs : ∃ evs, rows d2 = rows (fix_collector_fields df) ++ evs
                        ∧ (length evs ≤ 2)%nat
                        ∧ Forall (fun r => is_kind "event" r = true) evs).
  { destruct S1 as [[_ ->] | [_ ->]]; destruct S2 as [[_ ->] | [_ ->]].
    - exists []. rewrite app_nil_r. split_and!; [done | simpl; lia | constructor].
    - eexists [_]. split_and!; [done | simpl; lia |].
      constructor; [apply Hev | constructor].
    - eexists [_]. split_and!; [done | simpl; lia |].
      constructor; [apply Hev | constructor].
    - eexists [_; _]. split_and!; [cbn [rows concat_row]; by rewrite <- app_assoc
                                  | simpl; lia |].
      constructor; [apply Hev |]. constructor; [apply Hev | constructor]. }
  destruct Hevs as (evs & Rev & Lev & Fev).
  exists d2, out, evs, new. split_and!; try done.
  - rewrite L. etrans; [apply length_filter |]. by vm_compute.
  - by apply (lookup_of_grows_link (columns df)).
Qed.







End Run.

(* ===================================================================== *)
(** * Runs on text identifiers                                            *)
(* ===================================================================== *)

(** pandas stores a number appended to a column of floats or nulls as a
    float, so an identifier that is a number does not read back as the text
    the de-duplication key was formed with.  Text and nulls are stored as
    they are: on a frame whose identifiers are text or null a run appends
    text and nulls only, outside the two numeric fields of a link. *)

Section TextIds.

Lemma dict_get_text (c : string) (d : Row) :
  Forall (fun kv => kv.1 = c → text_or_null kv.2 = true) d →
  text_or_null (default NA (dict_get c d)) = true.
Proof.
  induction 1 as [|[k v] d H _ IH]; [done |]. simpl.
  destruct (String.eqb_spec c k) as [-> | _]; [by apply H | done].
Qed.

Lemma event_row_text cols a id y : text_row (event_row cols a id y).
Proof.
  intros c _. rewrite event_row_cell. apply dict_get_text, Forall_rev.
  repeat (constructor; [simpl; intros _; reflexivity |]).
  constructor.
Qed.

Lemma link_row_text cols a id :
  text_or_null (parent_id a) = true → text_row (link_row cols a id).
Proof.
  intros Hp c Hc. rewrite link_row_cell. apply dict_get_text, Forall_rev.
  repeat (constructor;
    [simpl; intros E;
     first [reflexivity | exact Hp
           | exfalso; apply Hc; rewrite <- E; unfold numeric_fields; set_solver] |]).
  constructor.
Qed.

Lemma text_row_ids (r : Row) :
  text_row r →
  text_or_null (cell_at ID_COL r) = true ∧ text_or_null (cell_at "parent_id" r) = true.
Proof.
  intros H. split; apply H; unfold numeric_fields, ID_COL; set_solver.
Qed.

Lemma text_ids_concat (df : DataFrame) (row : Row) :
  text_ids df = true → text_row row → text_ids (concat_row df row) = true.
Proof.
  unfold text_ids, text_column. cbn [rows concat_row].
  intros [H1 H2]%andb_prop [Hi Hp]%text_row_ids.
  rewrite !forallb_app, H1, H2. simpl. by rewrite Hi, Hp.
Qed.

Lemma text_column_fix (c : string) (df : DataFrame) :
  c ≠ "collected_by" → c ≠ "collection_date" →
  text_column c (fix_collector_fields df) = text_column c df.
Proof.
  intros H1 H2. unfold text_column.
  destruct (fix_collector_fields_rows df) as [-> | ->]; [done |].
  induction (rows df) as [|r rs IH]; [done |].
  cbn [fmap list_fmap forallb]. rewrite fix_row_other by done.
  f_equal. exact IH.
Qed.

Lemma text_ids_fix (df : DataFrame) :
  text_ids (fix_collector_fields df) = text_ids df.
Proof. unfold text_ids. by rewrite !text_column_fix. Qed.

Lemma grows_text (step : DataFrame → Row → Prop) (a b : DataFrame) :
  (∀ df row, step df row → text_row row) →
  grows step a b → text_ids a = true → text_ids b = true.
Proof.
  intros Hs G Ha. induction G as [|b row G IH Hr]; [done |].
  apply text_ids_concat; [done |]. by eapply Hs.
Qed.

Lemma lookup_of_text (rs : list Row) (c : string) (v : cell) :
  forallb (fun r => text_or_null (cell_at ID_COL r)) rs = true →
  lookup_of rs !! c = Some v → text_or_null v = true.
Proof.
  intros H (i & r & Hi & _ & <-)%lookup_of_Some_inv.
  rewrite forallb_forall in H. apply H.
  apply list_elem_of_In. by eapply list_elem_of_lookup_2.
Qed.

(** The link phase of a run, row by row, from the frame the event phase
    returned. *)
Lemma enrich_links (df d2 out : DataFrame) :
  has_required df →
  event_phase (columns df) df = Ok d2 →
  enrich df = Ok out →
  grows (event_step (columns df)) (fix_collector_fields df) d2
  ∧ ∃ new : list Row,
      rows out = rows d2 ++ new
      ∧ Forall (fun r =>
          ∃ (c : link_call) (pid : cell) (id : string),
            c ∈ link_calls ∧ lookup_of (rows d2) !! parent_event_code c = Some pid
            ∧ r = link_row (columns df) (call_args c pid) id) new.
Proof.
  intros Hreq E Eo.
  destruct (event_phase_spec (columns df) df Hreq) as (d2' & E' & G & _).
  rewrite E in E'. injection E' as <-. split; [done |].
  assert (Hreq2 : has_required d2)
    by (eapply has_required_grows; [exact G | by apply has_required_fix]).
  destruct (has_required_cols _ Hreq2) as (Hid & Hrt & Hic & _).
  destruct (add_links_rows (columns df) (lookup_of (rows d2)) (link_keys_of d2)
              link_calls d2 Hid) as (out' & new & EL & R & _ & F).
  assert (Eout : enrich df = Ok out').
  { unfold enrich. rewrite E, bind_Ok. unfold link_phase.
    rewrite event_lookup_ok, bind_Ok by done.
    by rewrite existing_link_keys_ok, bind_Ok. }
  rewrite Eo in Eout. injection Eout as <-.
  exists new. split; [done |].
  eapply Forall_impl; [exact F |].
  intros r (c & pid & id & Hc & Hpid & _ & ->). by exists c, pid, id.
Qed.

(** A run on text identifiers appends text and nulls, and leaves text
    identifiers behind. *)
Lemma enrich_text (df d2 out : DataFrame) :
  has_required df → text_ids df = true →
  event_phase (columns df) df = Ok d2 →
  enrich df = Ok out →
  text_ids d2 = true
  ∧ text_ids out = true
  ∧ ∃ new : list Row, rows out = rows d2 ++ new ∧ Forall text_row new.
Proof.
  intros Hreq Ht E Eo.
  destruct (enrich_links df d2 out Hreq E Eo) as (G & new & R & F).
  assert (Ht2 : text_ids d2 = true).
  { eapply grows_text; [| exact G | by rewrite text_ids_fix].
    intros d row (a & y & ->). apply event_row_text. }
  assert (Fn : Forall text_row new).
  { eapply Forall_impl; [exact F |].
    intros r (c & pid & id & _ & Hpid & ->). apply link_row_text. simpl.
    apply (lookup_of_text (rows d2) (parent_event_code c)); [| done].
    unfold text_ids in Ht2. by apply andb_prop in Ht2 as [? _]. }
  split; [done |]. split; [| by exists new].
  unfold text_ids, text_column in *. rewrite R, !forallb_app.
  apply andb_prop in Ht2 as [-> ->]. simpl.
  apply andb_true_intro. split; apply forallb_forall; intros r Hr;
    apply list_elem_of_In in Hr; rewrite Forall_forall in Fn;
    by apply (text_row_ids r (Fn r Hr)).
Qed.

End TextIds.

(** C1 as the code has it.  On a table with the required columns whose
    identifiers are text or null, the table a run returns has text or null
    identifiers again, and a second run on it, in memory, appends nothing
    and adds no label: it returns the first output after one more
    correction pass, with the same number of rows.  When the input (a frame
    whose rows have cells under its own labels only) has a
    [collection_date] column or has no [collected_by] column, that pass
    changes nothing either, and the second output is the first output, row
    for row. *)
Theorem enrich_twice (df out : DataFrame) :
  required_ok df = true →
  text_ids df = true →
  enrich df = Ok out →
  text_ids out = true
  ∧ enrich out = Ok (fix_collector_fields out)
  ∧ columns (fix_collector_fields out) = columns out
  ∧ length (rows (fix_collector_fields out)) = length (rows out)
  ∧ (well_formed df = true →
     has_col df "collection_date" = true ∨ has_col df "collected_by" = false →
     enrich out = Ok out).
Proof.
  intros Hreq%required_ok_true Ht E.
  pose proof (enrich_again df out Hreq E) as E2.
  destruct (event_phase_spec (columns df) df Hreq) as (d2 & Ee & _).
  destruct (enrich_text df d2 out Hreq Ht Ee E) as (_ & Hto & _).
  split_and!; try done.
  - apply fix_collector_fields_columns.
  - apply fix_collector_fields_length.
  - intros Hwf Hcols. rewrite E2. f_equal. apply fix_collector_fields_id.
    eapply grows_mask; [by apply enrich_grows |]. by apply fix_settled.
Qed.

Lemma enrich_twice_witness :
  required_ok table_linked = true
  ∧ text_ids table_linked = true
  ∧ ∃ out : DataFrame,
      enrich table_linked = Ok out
      ∧ text_ids out = true
      ∧ enrich out = Ok (fix_collector_fields out)
      ∧ columns (fix_collector_fields out) = columns out
      ∧ length (rows (fix_collector_fields out)) = length (rows out)
      ∧ (well_formed table_linked = true →
         has_col table_linked "collection_date" = true
         ∨ has_col table_linked "collected_by" = false →
         enrich out = Ok out).
Proof.
  split; [reflexivity |]. split; [reflexivity |].
  eexists. split; [vm_compute; reflexivity |].
  apply (enrich_twice table_linked _ eq_refl eq_refl). vm_compute. reflexivity.
Defined.

(** C1, counterexample.  The claim as the specification words it fails
    when the input has [collected_by] and no [collection_date] column: the second run rewrites
    an event row the first run had left alone. *)
Lemma enrich_twice_alters_event :
  required_ok table_no_date_column = true
  ∧ well_formed table_no_date_column = true
  ∧ ∃ out out2 : DataFrame,
      enrich table_no_date_column = Ok out
      ∧ enrich out = Ok out2
      ∧ filter (fun r => is_kind "event" r) (rows out2)
        ≠ filter (fun r => is_kind "event" r) (rows out).
Proof.
  split; [reflexivity |]. split; [reflexivity |].
  eexists. eexists. split; [reflexivity |]. split; [vm_compute; reflexivity |].
  vm_compute. discriminate.
Qed.

(** C6 as the code has it.  The de-duplication set is built once, from the
    impact links present when the link phase starts, and is never added to:
    on a table whose identifiers are text or null, the rows the link phase
    appends are impact links, one for each call whose parent resolves and
    whose key is not in that set, in the order of the calls, each reading
    back as the key of its call, so each appended key is outside the set.
    When the record identifiers of the input print pairwise differently,
    the calls that pass have pairwise different keys, and no two impact
    links appended in the run share (parent_id, related_indicator). *)
Theorem appended_links_distinct (df d2 out : DataFrame) :
  required_ok df = true →
  text_ids df = true →
  event_phase (columns df) df = Ok d2 →
  enrich df = Ok out →
  ∃ new : list Row,
    new = drop (length (rows d2)) (rows out)
    ∧ length (rows out) = (length (rows d2) + length new)%nat
    ∧ Forall (fun r => is_kind "impact_link" r = true) new
    ∧ Forall text_row new
    ∧ link_key <$> new
      = call_key (lookup_of (rows d2))
        <$> filter (fun c => passes (lookup_of (rows d2)) (link_keys_of d2) c)
              link_calls
    ∧ (∀ r, r ∈ new → link_key r ∉ link_keys_of d2)
    ∧ (NoDup (py_str <$> ids df) → NoDup (link_key <$> new)).
Proof.
  intros Hreq%required_ok_true Ht Ee E.
  destruct (enrich_spec df Hreq)
    as (d2' & out' & new & Ee' & E' & G1 & G2 & _ & _ & R & F & K & _).
  rewrite Ee in Ee'. injection Ee' as <-.
  rewrite E in E'. injection E' as <-.
  destruct (enrich_text df d2 out Hreq Ht Ee E) as (_ & _ & new' & R' & Fn).
  assert (new' = new) as -> by (rewrite R in R'; by apply app_inv_head in R').
  exists new. split_and!; try done.
  - by rewrite R, drop_app_length.
  - by rewrite R, length_app.
  - intros r Hr.
    assert (Hk : link_key r ∈ link_key <$> new) by (apply list_elem_of_fmap; eauto).
    rewrite K in Hk. apply list_elem_of_fmap in Hk as (c & -> & Hc).
    apply list_elem_of_filter in Hc as [Hp _]. unfold passes in Hp.
    destruct (lookup_of (rows d2) !! parent_event_code c); [| done].
    by apply bool_decide_unpack in Hp.
  - intros Nd. rewrite K. apply passing_keys_distinct. intros p q Hp Hq.
    apply (lookup_of_distinct (rows d2) "EVT_TELEBIRR" "EVT_INTEROP_CROSSOVER");
      try done.
    apply (grows_str_ids (columns df) (fix_collector_fields df)).
    + eapply grows_mono; [| exact G1]. intros ? ? ?. by left.
    + by rewrite ids_fix.
Qed.

Lemma appended_links_distinct_witness :
  required_ok table_linked = true
  ∧ text_ids table_linked = true
  ∧ ∃ d2 out : DataFrame,
      event_phase (columns table_linked) table_linked = Ok d2
      ∧ enrich table_linked = Ok out
      ∧ ∃ new : list Row,
          new = drop (length (rows d2)) (rows out)
          ∧ length (rows out) = (length (rows d2) + length new)%nat
          ∧ Forall (fun r => is_kind "impact_link" r = true) new
          ∧ Forall text_row new
          ∧ link_key <$> new
            = call_key (lookup_of (rows d2))
              <$> filter (fun c => passes (lookup_of (rows d2)) (link_keys_of d2) c)
                    link_calls
          ∧ (∀ r, r ∈ new → link_key r ∉ link_keys_of d2)
          ∧ (NoDup (py_str <$> ids table_linked) → NoDup (link_key <$> new)).
Proof.
  split; [reflexivity |]. split; [reflexivity |].
  eexists. eexists.
  split; [vm_compute; reflexivity |]. split; [vm_compute; reflexivity |].
  apply (appended_links_distinct table_linked _ _ eq_refl eq_refl);
    vm_compute; reflexivity.
Defined.

(** The witness table in numbers: the Telebirr event resolves, its first
    link is in the set and is passed over, its second link is appended. *)
Example table_linked_links :
  ∃ out : DataFrame,
    enrich table_linked = Ok out
    ∧ link_key <$> drop 4 (rows out)
      = [("EVT_0001", "USG_DIGITAL_PAYMENT");
         ("EVT_0002", "USG_DIGITAL_PAYMENT");
         ("EVT_0003", "ACC_OWNERSHIP")].
Proof. eexists. split; [vm_compute; reflexivity |]. vm_compute. reflexivity. Qed.

(** C6, counterexample.  The claim as the specification words it fails
    when two events share an identifier: the run appends two impact links with one and the same
    (parent_id, related_indicator), the second not stopped by the first. *)
Lemma two_links_one_key :
  required_ok table_shared_id = true
  ∧ ∃ (out : DataFrame) (r1 r2 : Row),
      enrich table_shared_id = Ok out
      ∧ rows out !! 4 = Some r1
      ∧ rows out !! 5 = Some r2
      ∧ length (rows table_shared_id) = 2
      ∧ is_kind "impact_link" r1 = true
      ∧ is_kind "impact_link" r2 = true
      ∧ link_key r1 = ("EVT_0001", "USG_DIGITAL_PAYMENT")
      ∧ link_key r2 = ("EVT_0001", "USG_DIGITAL_PAYMENT").
Proof.
  split; [reflexivity |].
  eexists. eexists. eexists.
  split; [reflexivity |].
  split; [vm_compute; reflexivity |].
  split; [vm_compute; reflexivity |].
  split_and!; reflexivity.
Qed.


(* ===================================================================== *)
(** * Further properties of a run                                         *)
(* ===================================================================== *)

(** ** The generator within the limit, the row builders, the link closure *)

(** X15.  On identifiers that show as at most 4300 characters the limit
    on digits is never met: [next_id] raises nothing and returns the
    identifier computed without the limit, whatever the prefix. *)
Theorem next_id_within_limit (l : list cell) (P : string) :
  forallb (fun x => (String.length x <=? Py.int_max_str_digits)%nat) (id_strings l)
  = true →
  next_id_limited l P = Ok (next_id l P)
  ∧ (next_id l P ∉ id_strings l).
Proof.
  intros H. split; [| apply next_id_not_in].
  apply next_id_limited_short. intros x Hx.
  rewrite forallb_forall in H. apply Nat.leb_le, H. by apply list_elem_of_In.
Qed.

Lemma next_id_within_limit_witness :
  forallb (fun x => (String.length x <=? Py.int_max_str_digits)%nat)
    (id_strings [Str "EVT_0007"; NA; Str "REC_0001"; Str "EVT_12"]) = true
  ∧ next_id_limited [Str "EVT_0007"; NA; Str "REC_0001"; Str "EVT_12"] "EVT"
    = Ok (next_id [Str "EVT_0007"; NA; Str "REC_0001"; Str "EVT_12"] "EVT")
  ∧ (next_id [Str "EVT_0007"; NA; Str "REC_0001"; Str "EVT_12"] "EVT"
     ∉ id_strings [Str "EVT_0007"; NA; Str "REC_0001"; Str "EVT_12"]).
Proof.
  split; [vm_compute; reflexivity |].
  apply (next_id_within_limit [Str "EVT_0007"; NA; Str "REC_0001"; Str "EVT_12"] "EVT").
  vm_compute. reflexivity.
Defined.

Lemma short_ids_strings (df : DataFrame) :
  short_ids df = true →
  ∀ x, x ∈ id_strings (ids df) → (String.length x ≤ Py.int_max_str_digits)%nat.
Proof.
  unfold short_ids, id_strings. intros H x Hx.
  change (map py_str ?l) with (py_str <$> l) in Hx.
  apply list_elem_of_fmap in Hx as (c & -> & Hc).
  apply list_elem_of_filter in Hc as [_ Hc].
  rewrite forallb_forall in H. apply Nat.leb_le, H. by apply list_elem_of_In.
Qed.

Lemma same_text_refl (rs : list Row) : Forall2 same_text rs rs.
Proof. induction rs; constructor; [by intros c _ | done]. Qed.

(** X4.  On a frame whose identifiers show as at most 4300 characters, and
    for an event date in the ISO spelling that names a day of the calendar,
    [add_event] raises [KeyError] when the frame has no [record_id] column
    and otherwise returns the frame with exactly one more row, last, and
    that row: it has a cell for every label of [cols], an [EVT] identifier
    no earlier row carries (the one CPython computes, the limit on digits
    not being met), the type [event], no pillar, the event date, the year
    of that date as fiscal year, text or nulls everywhere, and nulls outside
    the event fields. *)
Theorem add_event_outcome (df : DataFrame) (cols : list string) (a : event_args)
    (y : Z) :
  short_ids df = true →
  Py.iso_calendar_year (event_date a) = Some y →
  match add_event df cols a with
  | Ok (df', row) =>
      has_col df ID_COL = true
      ∧ next_id_limited (ids df) "EVT" = Ok (next_id (ids df) "EVT")
      ∧ rows df' = rows df ++ [row]
      ∧ (∀ c, c ∈ columns df' ↔ c ∈ columns df ∨ c ∈ keys row)
      ∧ (∀ c, c ∈ cols → c ∈ keys row)
      ∧ cell_at ID_COL row = Str (next_id (ids df) "EVT")
      ∧ (cell_at ID_COL row ∉ ids df)
      ∧ cell_at "record_type" row = Str "event"
      ∧ cell_at "indicator_code" row = Str (indicator_code a)
      ∧ cell_at "pillar" row = NA
      ∧ cell_at DATE_COL row = Str (event_date a)
      ∧ cell_at "fiscal_year" row = Str (Py.str_int y)
      ∧ text_row row
      ∧ (∀ c, c ∉ event_fields → cell_at c row = NA)
  | Raise e => has_col df ID_COL = false ∧ e = KeyError ID_COL
  end.
Proof.
  intros Hshort Hy.
  pose proof (next_id_limited_short (ids df) "EVT" (short_ids_strings df Hshort))
    as Hlim.
  unfold add_event, getcol.
  destruct (has_col df ID_COL) eqn:Hid; [| done].
  rewrite bind_Ok. unfold to_datetime_year. rewrite Hy, bind_Ok. fold (ids df).
  set (row := event_row cols a (next_id (ids df) "EVT") y).
  cbv beta iota zeta.
  split; [reflexivity |]. split; [exact Hlim |]. split; [reflexivity |].
  split; [apply concat_row_columns |].
  split; [intros c Hc; apply event_row_keys; by left |].
  split; [apply event_row_id |].
  split; [unfold row; rewrite event_row_id; apply next_id_fresh_cell |].
  split; [apply event_row_type |].
  split; [apply event_row_code |].
  split; [unfold row; rewrite event_row_cell; reflexivity |].
  split; [unfold row; rewrite event_row_cell; reflexivity |].
  split; [unfold row; rewrite event_row_cell; reflexivity |].
  split; [apply event_row_text |].
  intros c. apply event_row_null.
Qed.

Lemma add_event_outcome_witness :
  short_ids table_min = true
  ∧ Py.iso_calendar_year (event_date interop_crossover) = Some 2024%Z
  ∧ match add_event table_min (columns table_min) interop_crossover with
    | Ok (df', row) =>
        has_col table_min ID_COL = true
        ∧ next_id_limited (ids table_min) "EVT" = Ok (next_id (ids table_min) "EVT")
        ∧ rows df' = rows table_min ++ [row]
        ∧ (∀ c, c ∈ columns df' ↔ c ∈ columns table_min ∨ c ∈ keys row)
        ∧ (∀ c, c ∈ columns table_min → c ∈ keys row)
        ∧ cell_at ID_COL row = Str (next_id (ids table_min) "EVT")
        ∧ (cell_at ID_COL row ∉ ids table_min)
        ∧ cell_at "record_type" row = Str "event"
        ∧ cell_at "indicator_code" row = Str (indicator_code interop_crossover)
        ∧ cell_at "pillar" row = NA
        ∧ cell_at DATE_COL row = Str (event_date interop_crossover)
        ∧ cell_at "fiscal_year" row = Str (Py.str_int 2024)
        ∧ text_row row
        ∧ (∀ c, c ∉ event_fields → cell_at c row = NA)
    | Raise e => has_col table_min ID_COL = false ∧ e = KeyError ID_COL
    end.
Proof.
  split; [vm_compute; reflexivity |]. split; [reflexivity |].
  apply (add_event_outcome table_min (columns table_min) interop_crossover 2024);
    vm_compute; reflexivity.
Defined.

(** The date parser of the model on spellings and days. *)
Example iso_calendar_year_days :
  Py.iso_calendar_year "2024-02-29" = Some 2024%Z
  ∧ Py.iso_calendar_year "2024-02-30" = None
  ∧ Py.iso_calendar_year "2023-02-29" = None
  ∧ Py.iso_calendar_year "2024-13-01" = None
  ∧ Py.iso_calendar_year "2024/01/01" = None.
Proof. repeat split. Qed.

(** X5.  On a frame whose identifiers show as at most 4300 characters,
    [add_impact_link] raises [KeyError] when the frame has no [record_id]
    column; otherwise it returns a dict and the frame with exactly one more
    row, last.  The dict carries an [LNK] identifier no earlier row carries
    (the one CPython computes), the type [impact_link], the parent
    identifier as it was passed, the related indicator, the lag as an
    integer and the magnitude as a float, the standard remark under [notes]
    when no note was passed and the note otherwise, and nulls outside the
    link fields (so no indicator code).  The frame shows the earlier rows
    and then the dict, as far as their cells are text or null; a number may
    be stored as a float. *)
Theorem add_impact_link_outcome (df : DataFrame) (cols : list string) (a : link_args) :
  short_ids df = true →
  match add_impact_link df cols a with
  | Ok (df', row) =>
      has_col df ID_COL = true
      ∧ next_id_limited (ids df) "LNK" = Ok (next_id (ids df) "LNK")
      ∧ Forall2 same_text (rows df ++ [row]) (rows df')
      ∧ (∀ c, c ∈ columns df' ↔ c ∈ columns df ∨ c ∈ keys row)
      ∧ (∀ c, c ∈ cols → c ∈ keys row)
      ∧ cell_at ID_COL row = Str (next_id (ids df) "LNK")
      ∧ (cell_at ID_COL row ∉ ids df)
      ∧ cell_at "record_type" row = Str "impact_link"
      ∧ cell_at "parent_id" row = parent_id a
      ∧ cell_at "related_indicator" row = Str (related_indicator a)
      ∧ cell_at "lag_months" row = Int (lag_months a)
      ∧ cell_at "impact_magnitude" row = Float (impact_magnitude a)
      ∧ (link_notes a = "" →
         cell_at "notes" row
         = Str "Impact link added for event-augmented modeling; calibrate in Task 3.")
      ∧ (link_notes a ≠ "" → cell_at "notes" row = Str (link_notes a))
      ∧ cell_at "indicator_code" row = NA
      ∧ (text_or_null (parent_id a) = true → text_row row)
      ∧ (∀ c, c ∉ link_fields → cell_at c row = NA)
  | Raise e => has_col df ID_COL = false ∧ e = KeyError ID_COL
  end.
Proof.
  intros Hshort.
  pose proof (next_id_limited_short (ids df) "LNK" (short_ids_strings df Hshort))
    as Hlim.
  unfold add_impact_link, getcol.
  destruct (has_col df ID_COL) eqn:Hid; [| done].
  rewrite bind_Ok. fold (ids df).
  set (row := link_row cols a (next_id (ids df) "LNK")).
  cbv beta iota zeta.
  assert (Hnotes : cell_at "notes" row
    = Str (if String.eqb (link_notes a) ""
           then "Impact link added for event-augmented modeling; calibrate in Task 3."
           else link_notes a))
    by (unfold row; rewrite link_row_cell; reflexivity).
  split; [reflexivity |]. split; [exact Hlim |].
  split; [apply same_text_refl |].
  split; [apply concat_row_columns |].
  split; [intros c Hc; apply link_row_keys; by left |].
  split; [apply link_row_id |].
  split; [unfold row; rewrite link_row_id; apply next_id_fresh_cell |].
  split; [apply link_row_type |].
  split; [apply link_row_parent |].
  split; [apply link_row_related |].
  split; [unfold row; rewrite link_row_cell; reflexivity |].
  split; [unfold row; rewrite link_row_cell; reflexivity |].
  split; [intros E; rewrite Hnotes, E; reflexivity |].
  split; [intros E; rewrite Hnotes;
          destruct (String.eqb_spec (link_notes a) ""); [contradiction | reflexivity] |].
  split; [| split; [intros Hp; by apply link_row_text | intros c; apply link_row_null]].
  apply link_row_null.
  apply (bool_decide_unpack ("indicator_code" ∉ link_fields)). vm_compute. exact I.
Qed.

Lemma add_impact_link_outcome_witness :
  short_ids table_linked = true
  ∧ match add_impact_link table_linked (columns table_linked)
            (call_args call_telebirr_account (Str "EVT_0001")) with
    | Ok (df', row) =>
        has_col table_linked ID_COL = true
        ∧ next_id_limited (ids table_linked) "LNK"
          = Ok (next_id (ids table_linked) "LNK")
        ∧ Forall2 same_text (rows table_linked ++ [row]) (rows df')
        ∧ (∀ c, c ∈ columns df' ↔ c ∈ columns table_linked ∨ c ∈ keys row)
        ∧ (∀ c, c ∈ columns table_linked → c ∈ keys row)
        ∧ cell_at ID_COL row = Str (next_id (ids table_linked) "LNK")
        ∧ (cell_at ID_COL row ∉ ids table_linked)
        ∧ cell_at "record_type" row = Str "impact_link"
        ∧ cell_at "parent_id" row
          = parent_id (call_args call_telebirr_account (Str "EVT_0001"))
        ∧ cell_at "related_indicator" row
          = Str (related_indicator (call_args call_telebirr_account (Str "EVT_0001")))
        ∧ cell_at "lag_months" row
          = Int (lag_months (call_args call_telebirr_account (Str "EVT_0001")))
        ∧ cell_at "impact_magnitude" row
          = Float (impact_magnitude (call_args call_telebirr_account (Str "EVT_0001")))
        ∧ (link_notes (call_args call_telebirr_account (Str "EVT_0001")) = "" →
           cell_at "notes" row
           = Str "Impact link added for event-augmented modeling; calibrate in Task 3.")
        ∧ (link_notes (call_args call_telebirr_account (Str "EVT_0001")) ≠ "" →
           cell_at "notes" row
           = Str (link_notes (call_args call_telebirr_account (Str "EVT_0001"))))
        ∧ cell_at "indicator_code" row = NA
        ∧ (text_or_null (parent_id (call_args call_telebirr_account (Str "EVT_0001")))
           = true → text_row row)
        ∧ (∀ c, c ∉ link_fields → cell_at c row = NA)
    | Raise e => has_col table_linked ID_COL = false ∧ e = KeyError ID_COL
    end.
Proof.
  split; [vm_compute; reflexivity |].
  apply (add_impact_link_outcome table_linked (columns table_linked)
           (call_args call_telebirr_account (Str "EVT_0001"))).
  vm_compute. reflexivity.
Defined.

(** X8.  With the set of the frame itself and a parent that resolves,
    [maybe_add_link] returns the frame unchanged when the frame already
    holds an impact link that shows the parent's identifier and the related
    indicator, and otherwise returns the frame [add_impact_link] returns
    for the call, with the resolved identifier as parent and the defaults
    for the arguments the call leaves out. *)
Theorem maybe_add_link_outcome (cols : list string) (lk : gmap string cell)
    (c : link_call) (pid : cell) (df : DataFrame) :
  lk !! parent_event_code c = Some pid →
  (covered df (py_str pid, call_related_indicator c) →
   maybe_add_link cols lk (link_keys_of df) c df = Ok df)
  ∧ (¬ covered df (py_str pid, call_related_indicator c) →
     maybe_add_link cols lk (link_keys_of df) c df
     = fst <$> add_impact_link df cols (call_args c pid))
  ∧ parent_id (call_args c pid) = pid
  ∧ related_indicator (call_args c pid) = call_related_indicator c
  ∧ relationship_type (call_args c pid) = "intervention"
  ∧ comparable_country (call_args c pid) = "Ethiopia"
  ∧ link_confidence (call_args c pid) = "medium"
  ∧ link_notes (call_args c pid) = "".
Proof.
  intros Hpid. unfold maybe_add_link. rewrite Hpid. split_and!; try done.
  - intros Hc%link_keys_of_elem. by rewrite bool_decide_eq_true_2.
  - intros Hc. rewrite bool_decide_eq_false_2; [done |].
    intros Hin%link_keys_of_elem. done.
Qed.

Lemma maybe_add_link_outcome_witness :
  ({[ "EVT_TELEBIRR" := Str "EVT_0001" ]} : gmap string cell)
      !! parent_event_code call_telebirr_account = Some (Str "EVT_0001")
  ∧ (covered table_linked
       (py_str (Str "EVT_0001"), call_related_indicator call_telebirr_account) →
     maybe_add_link (columns table_linked) {[ "EVT_TELEBIRR" := Str "EVT_0001" ]}
       (link_keys_of table_linked) call_telebirr_account table_linked
     = Ok table_linked)
  ∧ (¬ covered table_linked
         (py_str (Str "EVT_0001"), call_related_indicator call_telebirr_account) →
     maybe_add_link (columns table_linked) {[ "EVT_TELEBIRR" := Str "EVT_0001" ]}
       (link_keys_of table_linked) call_telebirr_account table_linked
     = fst <$> add_impact_link table_linked (columns table_linked)
                 (call_args call_telebirr_account (Str "EVT_0001")))
  ∧ parent_id (call_args call_telebirr_account (Str "EVT_0001")) = Str "EVT_0001"
  ∧ related_indicator (call_args call_telebirr_account (Str "EVT_0001"))
    = call_related_indicator call_telebirr_account
  ∧ relationship_type (call_args call_telebirr_account (Str "EVT_0001"))
    = "intervention"
  ∧ comparable_country (call_args call_telebirr_account (Str "EVT_0001"))
    = "Ethiopia"
  ∧ link_confidence (call_args call_telebirr_account (Str "EVT_0001")) = "medium"
  ∧ link_notes (call_args call_telebirr_account (Str "EVT_0001")) = "".
Proof.
  split; [reflexivity |].
  apply (maybe_add_link_outcome (columns table_linked)
           {[ "EVT_TELEBIRR" := Str "EVT_0001" ]} call_telebirr_account
           (Str "EVT_0001") table_linked); reflexivity.
Defined.



(** X10.  On a table whose identifiers are text or null, every impact link
    a run appends points at an event of the output: it comes from one of
    the five calls, carries that call's related indicator and pillar, and
    its parent identifier, text or null, is the identifier of the last
    event row of the output that carries the call's parent code. *)
Theorem appended_links_reference_events (df out : DataFrame) :
  required_ok df = true →
  text_ids df = true →
  enrich df = Ok out →
  ∀ (i : nat) (r : Row),
    (length (rows df) ≤ i)%nat →
    rows out !! i = Some r →
    is_kind "impact_link" r = true →
    ∃ c : link_call,
      c ∈ link_calls
      ∧ cell_at "related_indicator" r = Str (call_related_indicator c)
      ∧ cell_at "pillar" r = Str (call_pillar c)
      ∧ text_or_null (cell_at "parent_id" r) = true
      ∧ resolves (rows out) (parent_event_code c) (cell_at "parent_id" r).
Proof.
  intros Hreq%required_ok_true Ht E.
  destruct (enrich_rows df Hreq)
    as (d2 & out' & evs & new & Eo & Rev & R & _ & Fev & _ & HL & F).
  rewrite E in Eo. injection Eo as <-.
  destruct (event_phase_spec (columns df) df Hreq) as (d2' & Ee & _).
  destruct (enrich_text df d2' out Hreq Ht Ee E) as (_ & Hto & _).
  intros i r Hi Hr Hk.
  assert (Hpt : text_or_null (cell_at "parent_id" r) = true).
  { unfold text_ids, text_column in Hto. apply andb_prop in Hto as [_ Hp].
    rewrite forallb_forall in Hp. apply Hp.
    apply list_elem_of_In. by eapply list_elem_of_lookup_2. }
  rewrite R, Rev in Hr.
  rewrite <- (fix_collector_fields_length df) in Hi.
  apply lookup_app_Some in Hr as [Hr | [_ Hr]].
  - apply lookup_app_Some in Hr as [Hr | [_ Hr]].
    + apply lookup_lt_Some in Hr. lia.
    + rewrite Forall_forall in Fev.
      assert (He : is_kind "event" r = true)
        by (apply Fev; eapply list_elem_of_lookup_2; exact Hr).
      unfold is_kind in *. apply bool_decide_eq_true in He, Hk. congruence.
  - rewrite Forall_forall in F.
    destruct (F r) as (c & pid & id & Hc & Hpid & _ & ->);
      [eapply list_elem_of_lookup_2; exact Hr |].
    exists c. split_and!; [done | apply link_row_related | | done |].
    + by rewrite link_row_cell.
    + rewrite link_row_parent. apply lookup_of_resolves. by rewrite HL.
Qed.

Lemma appended_links_reference_events_witness :
  required_ok table_linked = true
  ∧ text_ids table_linked = true
  ∧ ∃ out : DataFrame,
      enrich table_linked = Ok out
      ∧ ∀ (i : nat) (r : Row),
          (length (rows table_linked) ≤ i)%nat →
          rows out !! i = Some r →
          is_kind "impact_link" r = true →
          ∃ c : link_call,
            c ∈ link_calls
            ∧ cell_at "related_indicator" r = Str (call_related_indicator c)
            ∧ cell_at "pillar" r = Str (call_pillar c)
            ∧ text_or_null (cell_at "parent_id" r) = true
            ∧ resolves (rows out) (parent_event_code c) (cell_at "parent_id" r).
Proof.
  split; [reflexivity |]. split; [reflexivity |].
  eexists. split; [vm_compute; reflexivity |].
  apply (appended_links_reference_events table_linked _ eq_refl eq_refl).
  vm_compute. reflexivity.
Defined.



(** ** What a run keeps *)

Section Kept.







End Kept.



(** X13.  The correction pass settles after one application: a second pass
    over its result changes nothing. *)
Theorem fix_collector_fields_idempotent (df : DataFrame) :
  fix_collector_fields (fix_collector_fields df) = fix_collector_fields df.
Proof.
  destruct (negb (has_col df "collected_by") || negb (has_col df "collection_date"))
    eqn:Hg.
  - assert (E : fix_collector_fields df = df)
      by (unfold fix_collector_fields; by rewrite Hg).
    by rewrite !E.
  - apply fix_collector_fields_id.
    unfold fix_collector_fields. rewrite Hg. cbn [rows].
    apply Forall_forall. intros r' (r & -> & _)%list_elem_of_fmap.
    apply fix_mask_fix_row.
Qed.

(** ** The column check and the transform *)

(** X14.  The transform itself needs the type, the identifier and the code
    column: on a frame without one of them it raises [KeyError] for a
    missing label and returns no frame, which is what the column check of
    [main] keeps from happening. *)
Theorem enrich_needs_columns (df : DataFrame) :
  has_col df "record_type" = false ∨ has_col df ID_COL = false
  ∨ has_col df "indicator_code" = false →
  ∃ k : string, enrich df = Raise (KeyError k) ∧ has_col df k = false.
Proof.
  intros H. unfold enrich, event_phase, event_lookup, getcol.
  assert (Hc : ∀ c, has_col (fix_collector_fields df) c = has_col df c)
    by (intros c; unfold has_col; by rewrite fix_collector_fields_columns).
  rewrite !Hc.
  destruct (has_col df "record_type") eqn:H1; [| by exists "record_type"].
  rewrite bind_Ok.
  destruct (has_col df ID_COL) eqn:H2; [| by exists ID_COL].
  rewrite bind_Ok.
  destruct (has_col df "indicator_code") eqn:H3; [| by exists "indicator_code"].
  destruct H as [H | [H | H]]; discriminate H.
Qed.

Lemma enrich_needs_columns_witness :
  (has_col table_no_record_type "record_type" = false
   ∨ has_col table_no_record_type ID_COL = false
   ∨ has_col table_no_record_type "indicator_code" = false)
  ∧ ∃ k : string,
      enrich table_no_record_type = Raise (KeyError k)
      ∧ has_col table_no_record_type k = false.
Proof.
  assert (H : has_col table_no_record_type "record_type" = false
              ∨ has_col table_no_record_type ID_COL = false
              ∨ has_col table_no_record_type "indicator_code" = false)
    by (left; reflexivity).
  split; [exact H |].
  apply (enrich_needs_columns table_no_record_type H).
Defined.

(** X16.  After a run on a table whose identifiers are text or null, both
    catalogue events resolve, and every link of the catalogue whose parent
    event resolves is in the table: the output has the two key columns and
    a row typed [impact_link] that shows the identifier of that parent and
    the related indicator of the call. *)
Theorem catalogue_links_present (df out : DataFrame) :
  required_ok df = true →
  text_ids df = true →
  enrich df = Ok out →
  text_ids out = true
  ∧ (∃ v, resolves (rows out) "EVT_INTEROP_CROSSOVER" v)
  ∧ (∃ v, resolves (rows out) "EVT_FAYDA_ROLLOUT" v)
  ∧ ∀ (c : link_call) (pid : cell),
      c ∈ link_calls →
      resolves (rows out) (parent_event_code c) pid →
      text_or_null pid = true
      ∧ covered out (py_str pid, call_related_indicator c).
Proof.
  intros Hreq%required_ok_true Ht E.
  destruct (enrich_spec df Hreq)
    as (d2 & out' & new & Ee & E' & _ & G2 & [vi Hi] & [vf Hf] & _ & _ & _ & C).
  rewrite E in E'. injection E' as <-.
  destruct (enrich_text df d2 out Hreq Ht Ee E) as (Ht2 & Hto & _).
  pose proof (lookup_of_grows_link _ _ _ G2) as HL.
  split_and!; [done | | |].
  - exists vi. apply lookup_of_resolves. by rewrite HL.
  - exists vf. apply lookup_of_resolves. by rewrite HL.
  - intros c pid Hc Hr. apply lookup_of_resolves in Hr. rewrite HL in Hr. split.
    + apply (lookup_of_text (rows d2) (parent_event_code c)); [| done].
      unfold text_ids in Ht2. by apply andb_prop in Ht2 as [? _].
    + destruct (passes (lookup_of (rows d2)) (link_keys_of d2) c) eqn:Hp.
      * specialize (C c Hc Hp). unfold call_key in C. by rewrite Hr in C.
      * eapply covered_grows; [exact G2 |]. apply link_keys_of_elem.
        unfold passes, call_key in Hp. rewrite Hr in Hp. simpl in Hp.
        apply bool_decide_eq_false in Hp.
        by destruct (decide ((py_str pid, call_related_indicator c)
                             ∈ link_keys_of d2)).
Qed.

Lemma catalogue_links_present_witness :
  required_ok table_linked = true
  ∧ text_ids table_linked = true
  ∧ ∃ out : DataFrame,
      enrich table_linked = Ok out
      ∧ text_ids out = true
      ∧ (∃ v, resolves (rows out) "EVT_INTEROP_CROSSOVER" v)
      ∧ (∃ v, resolves (rows out) "EVT_FAYDA_ROLLOUT" v)
      ∧ ∀ (c : link_call) (pid : cell),
          c ∈ link_calls →
          resolves (rows out) (parent_event_code c) pid →
          text_or_null pid = true
          ∧ covered out (py_str pid, call_related_indicator c).
Proof.
  split; [reflexivity |]. split; [reflexivity |].
  eexists. split; [vm_compute; reflexivity |].
  apply (catalogue_links_present table_linked _ eq_refl eq_refl).
  vm_compute. reflexivity.
Defined.
